(** * Intercom reporting-data export connector: model and properties

    A shallow embedding of [connector.py].  The connector is one
    generator, [update], built from three HTTP helpers ([_enqueue_job],
    [_poll_job], [_download_csv]).  Python values are a small tagged
    union, dictionaries are finite maps, and everything the code does to
    the outside world (clock, HTTP, sleeping, logging, handing operations
    to the sink) goes through one state-and-error monad whose output is
    the list of events in the order the code produces them.

    What the model takes for granted:
    - values are those of JSON without floats, and text is made of code
      points below 256;
    - the clock is read in whole seconds, so that the reading a day
      earlier is the reading less 86400;
    - the generator is run to its end: the consumer takes every
      operation it yields;
    - [int], [str.strip], [str.split] and [csv.DictReader] are those of
      CPython 3.11 and later with their default settings. *)

From Stdlib Require Import ZArith Ascii String List Bool Lia.
From stdpp Require Import base option list strings gmap fin_maps.

Set Warnings "-register-all".

Local Open Scope string_scope.
Local Open Scope Z_scope.
Local Open Scope list_scope.

(** ** Python values

    The values a JSON document or a configuration file can hold, floats
    left out.  A [string] is a sequence of code points below 256, one per
    [ascii]. *)

Inductive PyVal : Type :=
| PNone
| PBool (b : bool)
| PInt (n : Z)
| PStr (s : string)
| PList (l : list PyVal)
| PDict (d : gmap string PyVal).

Abbreviation dict := (gmap string PyVal).

(** Truth value of an object, as [if x:], [not x] and [x or y] use it. *)
Definition truthy (v : PyVal) : bool :=
  match v with
  | PNone => false
  | PBool b => b
  | PInt n => negb (Z.eqb n 0)
  | PStr s => negb (String.eqb s "")
  | PList l => match l with [] => false | _ => true end
  | PDict d => negb (Nat.eqb (size d) 0)
  end.

(** [hashable v]: lists and dicts raise [TypeError] when hashed. *)
Definition hashable (v : PyVal) : bool :=
  match v with
  | PList _ | PDict _ => false
  | _ => true
  end.

(** [v == s] for a string literal [s]: only an equal [str] compares
    equal to a [str]. *)
Definition eq_str (v : PyVal) (s : string) : bool :=
  match v with
  | PStr t => String.eqb t s
  | _ => false
  end.

(** ** Exceptions and results *)

(** An f-string, kept as its parts: literal text and interpolated values. *)
Inductive fpart : Type :=
| Lit (s : string)
| Val (v : PyVal).

Abbreviation fstring := (list fpart).

Inductive Exn : Type :=
| KeyError (key : string)
| TypeError
| ValueError
| AttributeError
| RequestException
| HTTPError (code : Z)
| JSONDecodeError
| UnicodeDecodeError
| CsvError
| SinkError
| RuntimeError (msg : fstring)
| TimeoutError (msg : fstring).

Inductive Res (A : Type) : Type :=
| Ok (a : A)
| Raise (e : Exn).
Arguments Ok {A} a.
Arguments Raise {A} e.

(** ** Strings: [str.strip], [str.split(',')] and [int(str)] *)

(** [str.isspace] on the code points below 256. *)
Definition is_space (c : ascii) : bool :=
  let n := nat_of_ascii c in
  ((9 <=? n) && (n <=? 13) || (28 <=? n) && (n <=? 32)
   || (n =? 133) || (n =? 160))%nat.

(** The whitespace [int] skips around a number: of the ASCII characters
    only tab to carriage return and the space (the separators 28 to 31
    are whitespace for [str.strip] and not for [int]), and the
    whitespace above ASCII. *)
Definition is_int_space (c : ascii) : bool :=
  let n := nat_of_ascii c in
  ((9 <=? n) && (n <=? 13) || (n =? 32) || (n =? 133) || (n =? 160))%nat.

Fixpoint lstrip_by (space : ascii -> bool) (s : string) : string :=
  match s with
  | String c s' => if space c then lstrip_by space s' else s
  | EmptyString => EmptyString
  end.

Fixpoint rstrip_by (space : ascii -> bool) (s : string) : string :=
  match s with
  | String c s' =>
      match rstrip_by space s' with
      | EmptyString => if space c then EmptyString else String c EmptyString
      | r => String c r
      end
  | EmptyString => EmptyString
  end.

(** [s.strip()] *)
Definition strip (s : string) : string :=
  rstrip_by is_space (lstrip_by is_space s).

(** [s.split(sep)] for a one-character separator: never an empty list. *)
Fixpoint split (sep : ascii) (s : string) : list string :=
  match s with
  | EmptyString => [EmptyString]
  | String c s' =>
      if Ascii.eqb c sep then EmptyString :: split sep s'
      else match split sep s' with
           | h :: t => String c h :: t
           | [] => [String c EmptyString]
           end
  end.

Definition digit_of (c : ascii) : option Z :=
  let n := nat_of_ascii c in
  if ((48 <=? n) && (n <=? 57))%nat then Some (Z.of_nat n - 48) else None.

(** Decimal digits with single underscores between them; the result is
    the value and the number of digits read. *)
Fixpoint digits_value (acc : Z) (count : nat) (prev_underscore : bool)
    (s : string) : option (Z * nat) :=
  match s with
  | EmptyString => if prev_underscore then None else Some (acc, count)
  | String c s' =>
      match digit_of c with
      | Some d => digits_value (10 * acc + d) (S count) false s'
      | None =>
          if Ascii.eqb c "_" then
            if prev_underscore then None else digits_value acc count true s'
          else None
      end
  end.

(** The interpreter's default limit on the digits of a decimal literal
    converted by [int] ([sys.int_info.default_max_str_digits]). *)
Definition int_max_str_digits : nat := 4300.

Definition int_of_digits (negative : bool) (body : string) : Res Z :=
  match body with
  | EmptyString => Raise ValueError
  | String c _ =>
      if Ascii.eqb c "_" then Raise ValueError
      else match digits_value 0 0 false body with
           | None => Raise ValueError
           | Some (v, k) =>
               if (int_max_str_digits <? k)%nat then Raise ValueError
               else Ok (if negative then - v else v)
           end
  end.

(** [int(s)] for a [str]: surrounding whitespace, an optional sign, then
    the digits. *)
Definition int_of_str (s : string) : Res Z :=
  match rstrip_by is_int_space (lstrip_by is_int_space s) with
  | String c body =>
      if Ascii.eqb c "-" then int_of_digits true body
      else if Ascii.eqb c "+" then int_of_digits false body
      else int_of_digits false (String c body)
  | EmptyString => Raise ValueError
  end.

(** The builtin [int(val)]. *)
Definition py_int (val : PyVal) : Res Z :=
  match val with
  | PNone => Raise TypeError
  | PBool b => Ok (if b then 1 else 0)
  | PInt n => Ok n
  | PStr s => int_of_str s
  | PList _ => Raise TypeError
  | PDict _ => Raise TypeError
  end.

(** [configuration.get(key)] : the value, or [None]. *)
Definition dict_get (d : dict) (key : string) : PyVal :=
  default PNone (d !! key).

(** ** The [csv] module, as [update] uses it

    [csv.DictReader(io.StringIO(csv_text))] with the default ("excel")
    dialect: comma delimiter, double-quote quote character (a doubled one
    inside a quoted field stands for itself), no escape
    character, not strict.  [io.StringIO] hands the reader its lines, cut
    after each line feed and nowhere else. *)

Fixpoint readlines (s : string) : list string :=
  match s with
  | EmptyString => []
  | String c s' =>
      if Ascii.eqb c "010" then String c EmptyString :: readlines s'
      else match readlines s' with
           | h :: t => String c h :: t
           | [] => [String c EmptyString]
           end
  end.

Inductive ParserState : Type :=
| START_RECORD
| START_FIELD
| IN_FIELD
| IN_QUOTED_FIELD
| QUOTE_IN_QUOTED_FIELD
| EAT_CRNL.

Record Reader : Type := mkReader {
  state : ParserState;
  fields : list string;     (* fields of the record being read *)
  field : string            (* characters of the field being read *)
}.

Definition field_limit : Z := 131072.

Definition set_state (st : ParserState) (r : Reader) : Reader :=
  mkReader st (fields r) (field r).

Definition parse_save_field (r : Reader) : Reader :=
  mkReader (state r) (fields r ++ [field r]) EmptyString.

Definition parse_add_char (r : Reader) (c : ascii) : Res Reader :=
  if field_limit <=? Z.of_nat (String.length (field r)) then Raise CsvError
  else Ok (mkReader (state r) (fields r) (String.append (field r) (String c EmptyString))).

Definition parse_reset (r : Reader) : Reader :=
  mkReader START_RECORD [] EmptyString.

Definition is_newline (c : ascii) : bool :=
  Ascii.eqb c "010" || Ascii.eqb c "013".

Definition delimiter : ascii := ",".
Definition quotechar : ascii := "034".

(** One step of the reader's automaton; [None] is the end-of-line mark
    fed after the last character of every line. *)
Definition parse_process_char (r : Reader) (c : option ascii) : Res Reader :=
  let start_field (r : Reader) :=
    match c with
    | None => Ok (set_state START_RECORD (parse_save_field r))
    | Some ch =>
        if is_newline ch then Ok (set_state EAT_CRNL (parse_save_field r))
        else if Ascii.eqb ch quotechar then Ok (set_state IN_QUOTED_FIELD r)
        else if Ascii.eqb ch delimiter then Ok (parse_save_field r)
        else match parse_add_char r ch with
             | Ok r' => Ok (set_state IN_FIELD r')
             | Raise e => Raise e
             end
    end in
  match state r with
  | START_RECORD =>
      match c with
      | None => Ok r
      | Some ch =>
          if is_newline ch then Ok (set_state EAT_CRNL r)
          else start_field (set_state START_FIELD r)
      end
  | START_FIELD => start_field r
  | IN_FIELD =>
      match c with
      | None => Ok (set_state START_RECORD (parse_save_field r))
      | Some ch =>
          if is_newline ch then Ok (set_state EAT_CRNL (parse_save_field r))
          else if Ascii.eqb ch delimiter
               then Ok (set_state START_FIELD (parse_save_field r))
          else parse_add_char r ch
      end
  | IN_QUOTED_FIELD =>
      match c with
      | None => Ok r
      | Some ch =>
          if Ascii.eqb ch quotechar then Ok (set_state QUOTE_IN_QUOTED_FIELD r)
          else parse_add_char r ch
      end
  | QUOTE_IN_QUOTED_FIELD =>
      match c with
      | None => Ok (set_state START_RECORD (parse_save_field r))
      | Some ch =>
          if Ascii.eqb ch quotechar then
            match parse_add_char r ch with
            | Ok r' => Ok (set_state IN_QUOTED_FIELD r')
            | Raise e => Raise e
            end
          else if Ascii.eqb ch delimiter
               then Ok (set_state START_FIELD (parse_save_field r))
          else if is_newline ch
               then Ok (set_state EAT_CRNL (parse_save_field r))
          else match parse_add_char r ch with
               | Ok r' => Ok (set_state IN_FIELD r')
               | Raise e => Raise e
               end
      end
  | EAT_CRNL =>
      match c with
      | None => Ok (set_state START_RECORD r)
      | Some ch => if is_newline ch then Ok r else Raise CsvError
      end
  end.

(** The characters of one line, then the end-of-line mark. *)
Fixpoint parse_line (r : Reader) (line : string) : Res Reader :=
  match line with
  | EmptyString => parse_process_char r None
  | String c rest =>
      match parse_process_char r (Some c) with
      | Ok r' => parse_line r' rest
      | Raise e => Raise e
      end
  end.

Definition is_start_record (st : ParserState) : bool :=
  match st with START_RECORD => true | _ => false end.

Definition is_in_quoted_field (st : ParserState) : bool :=
  match st with IN_QUOTED_FIELD => true | _ => false end.

(** The records [next(reader)] returns, call after call, until the input
    is exhausted or a call raises: the records read before, and the
    exception if there was one.  A record ends with the line on which the
    automaton is back in [START_RECORD]; at the end of the input an open
    quoted field, or a field with characters in it, closes the record. *)
Fixpoint reader_records (r : Reader) (lines : list string)
    : list (list string) * option Exn :=
  match lines with
  | [] =>
      if negb (Nat.eqb (String.length (field r)) 0)
         || is_in_quoted_field (state r)
      then ([fields (parse_save_field r)], None)
      else ([], None)
  | line :: rest =>
      match parse_line r line with
      | Raise e => ([], Some e)
      | Ok r' =>
          if is_start_record (state r') then
            let '(recs, err) := reader_records (parse_reset r') rest in
            (fields r' :: recs, err)
          else reader_records r' rest
      end
  end.

Definition csv_reader (text : string) : list (list string) * option Exn :=
  reader_records (mkReader START_RECORD [] EmptyString) (readlines text).

(** A decoded row: column name to value; the key [None] is
    [DictReader]'s [restkey], which collects the fields of a record
    longer than the header. *)
Abbreviation row := (gmap (option string) PyVal).

(** [dict(pairs)]: a later pair replaces an earlier one with its key. *)
Definition dict_of_pairs (pairs : list (option string * PyVal)) : row :=
  foldl (fun d kv => <[kv.1 := kv.2]> d) ∅ pairs.

(** One [DictReader.__next__] result, from the header and a record. *)
Definition dict_row (fieldnames record : list string) : row :=
  let d := dict_of_pairs (zip (Some <$> fieldnames) (PStr <$> record)) in
  let lf := length fieldnames in
  let lr := length record in
  if (lf <? lr)%nat then <[None := PList (PStr <$> drop lf record)]> d
  else foldl (fun d key => <[Some key := PNone]> d) d (drop lr fieldnames).

Definition is_blank (record : list string) : bool :=
  match record with [] => true | _ => false end.

(** Iterating a [DictReader]: the first record is the header, blank
    records after it are skipped. *)
Definition DictReader (text : string) : list row * option Exn :=
  let '(records, err) := csv_reader text in
  match records with
  | [] => ([], err)
  | fieldnames :: rest =>
      (dict_row fieldnames <$> filter (fun rec => is_blank rec = false) rest,
       err)
  end.

(** Line 148: [{k: (v if v != "" else None) for k, v in row.items()}]. *)
Definition clean_value (v : PyVal) : PyVal :=
  if eq_str v "" then PNone else v.

Definition cleaned (r : row) : row := clean_value <$> r.

(** ** Helpers local to [update] *)

(** [_as_int(val, default)]; [default] is [3600] at one call and [None]
    at the other. *)
Definition _as_int (val : PyVal) (default : option Z) : Res (option Z) :=
  match py_int val with
  | Ok n => Ok (Some n)
  | Raise TypeError => Ok default
  | Raise ValueError => Ok default
  | Raise e => Raise e
  end.

(** [not start_ts], for the [int]-or-[None] that [_as_int] returns. *)
Definition not_int (v : option Z) : bool :=
  match v with
  | None => true
  | Some n => n =? 0
  end.

(** [timedelta(days=1)], in seconds. *)
Definition one_day : Z := 86400.

(** Lines 131-135: [attribute_ids] from the raw configuration value. *)
Definition attribute_ids_of (raw_attrs : PyVal) : PyVal :=
  match raw_attrs with
  | PStr s =>
      PList (PStr <$> (strip <$>
        filter (fun seg => truthy (PStr (strip seg)) = true) (split "," s)))
  | _ => if truthy raw_attrs then raw_attrs else PList []
  end.

(** ** The outside world

    What the connector cannot decide by itself is read from an
    environment: the successive readings of the UTC clock (whole seconds
    since the epoch, as [int(datetime.now(timezone.utc).timestamp())]
    gives them), the reply to each HTTP request in the order the requests
    are made ([None]: [requests] raises instead of returning a response),
    and whether the sink takes each upsert. *)

Record Response : Type := mkResponse {
  status_code : Z;
  json : option PyVal;       (* [resp.json()]; [None]: not a JSON document *)
  content : option string    (* [resp.content.decode("utf-8")]; [None]: not UTF-8 *)
}.

Record Env : Type := mkEnv {
  clock : nat -> Z;
  network : nat -> option Response;
  sink : nat -> bool
}.

(** How far the run has read into the environment. *)
Record Counters : Type := mkCounters {
  ticks : nat;          (* clock readings taken *)
  requests : nat;       (* HTTP requests made *)
  offered : nat         (* upserts handed to the sink *)
}.

Inductive Event : Type :=
| EvLog (msg : fstring)
| EvEnqueue (payload : dict)
| EvPoll (job_id : PyVal)
| EvDownload (job_id : PyVal) (download_url : PyVal)
| EvSleep (seconds : Z)
| EvUpsert (table : PyVal) (data : row)
| EvCheckpoint (new_state : dict).

(** A computation: from the counters to a result, the new counters and
    the events it produced, oldest first. *)
Definition M (A : Type) : Type := Counters -> Res A * Counters * list Event.

Definition ret {A} (a : A) : M A := fun c => (Ok a, c, []).

Definition raise {A} (e : Exn) : M A := fun c => (Raise e, c, []).

Definition bind {A B} (m : M A) (k : A -> M B) : M B :=
  fun c =>
    match m c with
    | (Ok a, c1, evs1) =>
        let '(r, c2, evs2) := k a c1 in (r, c2, evs1 ++ evs2)
    | (Raise e, c1, evs1) => (Raise e, c1, evs1)
    end.

#[global] Instance M_ret : MRet M := @ret.
#[global] Instance M_bind : MBind M := fun A B k m => bind m k.

Definition lift {A} (r : Res A) : M A := fun c => (r, c, []).

Definition emit (ev : Event) : M unit := fun c => (Ok tt, c, [ev]).

Definition log_info (msg : fstring) : M unit := emit (EvLog msg).

Section Connector.

Variable env : Env.

(** [int(datetime.now(timezone.utc).timestamp())]: the next reading of
    the clock. *)
Definition now : M Z :=
  fun c => (Ok (clock env (ticks c)),
            mkCounters (S (ticks c)) (requests c) (offered c), []).

(** One HTTP request; [ev] says which. *)
Definition http (ev : Event) : M Response :=
  fun c =>
    let c' := mkCounters (ticks c) (S (requests c)) (offered c) in
    match network env (requests c) with
    | Some resp => (Ok resp, c', [ev])
    | None => (Raise RequestException, c', [ev])
    end.

(** [yield op.upsert(table=..., data=...)]: the operation is emitted when
    the sink takes it; otherwise the call raises and nothing is emitted. *)
Definition upsert (table : PyVal) (data : row) : M unit :=
  fun c =>
    let c' := mkCounters (ticks c) (requests c) (S (offered c)) in
    if sink env (offered c) then (Ok tt, c', [EvUpsert table data])
    else (Raise SinkError, c', []).

(** [yield op.checkpoint(state=...)]; the state is one integer under one
    key, which the operation cannot refuse. *)
Definition checkpoint (new_state : dict) : M unit :=
  emit (EvCheckpoint new_state).

(** [time.sleep(secs)]: a negative length is a [ValueError]. *)
Definition sleep (secs : Z) : M unit :=
  if secs <? 0 then raise ValueError else emit (EvSleep secs).

(** [resp.raise_for_status()]: raises for the statuses 400 to 599. *)
Definition raise_for_status (resp : Response) : M unit :=
  if (400 <=? status_code resp) && (status_code resp <? 600)
  then raise (HTTPError (status_code resp))
  else ret tt.

(** [resp.json()] *)
Definition resp_json (resp : Response) : M PyVal :=
  match json resp with
  | Some v => ret v
  | None => raise JSONDecodeError
  end.

(** [d[key]] on a dictionary. *)
Definition getitem (d : dict) (key : string) : M PyVal :=
  match d !! key with
  | Some v => ret v
  | None => raise (KeyError key)
  end.

(** [v[key]] on any value, [key] a string. *)
Definition subscript (v : PyVal) (key : string) : M PyVal :=
  match v with
  | PDict d => getitem d key
  | _ => raise TypeError
  end.

(** [v.get(key, default)] *)
Definition py_get (v : PyVal) (key : string) (default : PyVal) : M PyVal :=
  match v with
  | PDict d => ret (from_option id default (d !! key))
  | _ => raise AttributeError
  end.

(** [v + n], [n] an [int]. *)
Definition add_int (v : PyVal) (n : Z) : M Z :=
  match v with
  | PInt m => ret (m + n)
  | PBool b => ret ((if b then 1 else 0) + n)
  | _ => raise TypeError
  end.

(** [status in {"failed", "error"}] *)
Definition in_failed_or_error (status : PyVal) : M bool :=
  if hashable status
  then ret (eq_str status "failed" || eq_str status "error")
  else raise TypeError.

(** *** [_enqueue_job] *)
Definition _enqueue_job (conf : dict) (start_ts end_ts : Z)
    (attribute_ids : PyVal) : M PyVal :=
  _ ← getitem conf "access_token";
  dataset_id ← getitem conf "dataset_id";
  let payload : dict :=
    <["dataset_id" := dataset_id]>
    (<["attribute_ids" := attribute_ids]>
    (<["start_time" := PInt start_ts]>
    (<["end_time" := PInt end_ts]> ∅))) in
  log_info [Lit "Enqueuing job for window "; Val (PInt start_ts);
            Lit " - "; Val (PInt end_ts)];;
  resp ← http (EvEnqueue payload);
  raise_for_status resp;;
  body ← resp_json resp;
  job_id ← subscript body "job_identifier";
  log_info [Lit "Job enqueued. job_identifier="; Val job_id];;
  ret job_id.

(** *** [_poll_job] *)

(** The [for attempt in range(max_tries)] loop: [Some info] when the loop
    is left by [return info], [None] when it runs to its end. *)
Fixpoint poll_loop (job_id : PyVal) (poll_interval : Z)
    (attempts : list nat) : M (option PyVal) :=
  match attempts with
  | [] => ret None
  | attempt :: rest =>
      resp ← http (EvPoll job_id);
      if status_code resp =? 404 then
        sleep poll_interval;;
        poll_loop job_id poll_interval rest
      else
        raise_for_status resp;;
        info ← resp_json resp;
        status ← py_get info "status" (PStr "");
        log_info [Lit "Poll attempt "; Val (PInt (Z.of_nat attempt + 1));
                  Lit ": status="; Val status];;
        if eq_str status "complete" then ret (Some info)
        else
          failed ← in_failed_or_error status;
          if failed : bool then
            raise (RuntimeError [Lit "Export job "; Val job_id;
                                 Lit " failed with status '"; Val status;
                                 Lit "'"])
          else
            sleep poll_interval;;
            poll_loop job_id poll_interval rest
  end.

Definition _poll_job (conf : dict) (job_id : PyVal)
    (poll_interval max_tries : Z) : M PyVal :=
  _ ← getitem conf "access_token";
  _ ← getitem conf "app_id";
  _ ← getitem conf "client_id";
  r ← poll_loop job_id poll_interval (seq 0 (Z.to_nat max_tries));
  match r with
  | Some info => ret info
  | None =>
      raise (TimeoutError [Lit "Export job "; Val job_id;
                           Lit " did not complete after ";
                           Val (PInt (max_tries * poll_interval));
                           Lit " seconds"])
  end.

(** *** [_download_csv] *)
Definition _download_csv (conf : dict) (job_id download_url : PyVal)
    : M string :=
  _ ← getitem conf "access_token";
  _ ← getitem conf "app_id";
  log_info [Lit "Downloading exported CSV data"];;
  resp ← http (EvDownload job_id download_url);
  raise_for_status resp;;
  match content resp with
  | Some text => ret text
  | None => raise UnicodeDecodeError
  end.

(** *** [update] *)

(** Lines 111-123: the window [(start_ts, end_ts)]. *)
Definition compute_window (conf state : dict) : M (Z * Z) :=
  window_seconds ← lift (_as_int (dict_get conf "window_seconds") (Some 3600));
  start_ts ←
    (if negb (Nat.eqb (size state) 0) then
       last_end_time ← getitem state "last_end_time";
       add_int last_end_time 1
     else
       start_ts ← lift (_as_int (dict_get conf "initial_start_time") None);
       if not_int start_ts then
         t ← now; ret (t - one_day)
       else ret (default 0 start_ts));
  limit ← match window_seconds with
          | Some w => ret (start_ts + w)
          | None => raise TypeError
          end;
  t ← now;
  ret (start_ts, Z.min limit t).

(** Lines 146-150: the loop over the decoded rows; the result is
    [row_count]. *)
Fixpoint upsert_rows (conf : dict) (rows : list row) (row_count : Z) : M Z :=
  match rows with
  | [] => ret row_count
  | r :: rest =>
      let data := cleaned r in
      let row_count := row_count + 1 in
      table ← getitem conf "dataset_id";
      upsert table data;;
      upsert_rows conf rest row_count
  end.

(** Lines 125-158: what [update] does with the window. *)
Definition sync_window (configuration : dict) (start_ts end_ts : Z) : M unit :=
  if start_ts >=? end_ts then
    log_info [Lit "No new time window to sync; skipping"]
  else
    let attribute_ids :=
      attribute_ids_of (dict_get configuration "attribute_ids") in
    job_id ← _enqueue_job configuration start_ts end_ts attribute_ids;
    job_info ← _poll_job configuration job_id 10 60;
    download_url ← subscript job_info "download_url";
    csv_text ← _download_csv configuration job_id download_url;
    let csv_reader := DictReader csv_text in
    row_count ← upsert_rows configuration csv_reader.1 0;
    match csv_reader.2 with
    | Some e => raise e
    | None => ret tt
    end;;
    log_info [Lit "Upserted "; Val (PInt row_count);
              Lit " rows for window "; Val (PInt start_ts); Lit "-";
              Val (PInt end_ts)];;
    checkpoint {["last_end_time" := PInt end_ts]}.

(** The generator, run to its end by a consumer that takes every
    operation it yields. *)
Definition update (configuration state : dict) : M unit :=
  w ← compute_window configuration state;
  sync_window configuration w.1 w.2.

End Connector.

(** * Observations on runs

    The vocabulary of the properties below: what is read off the
    counters, the events and the result of a run. *)

(** The counters after one more clock reading. *)
Definition tick (c : Counters) : Counters :=
  mkCounters (S (ticks c)) (requests c) (offered c).

(** The counters after [n] more HTTP requests. *)
Definition sent (n : nat) (c : Counters) : Counters :=
  mkCounters (ticks c) (n + requests c) (offered c).

(** Every event a run of [m] produces satisfies [P]. *)
Definition emits {A} (P : Event -> Prop) (m : M A) : Prop :=
  forall c, Forall P (m c).2.

(** Events a computation has produced by the time it raises. *)
Definition raises_within {A} (P : Event -> Prop) (m : M A) : Prop :=
  forall c,
    match m c with
    | (Raise _, _, evs) => Forall P evs
    | (Ok _, _, _) => True
    end.

(** The upsert of one decoded row, as line 150 builds it. *)
Definition upsert_event (conf : dict) (r : row) : Event :=
  EvUpsert (dict_get conf "dataset_id") (cleaned r).

Definition is_checkpoint (ev : Event) : bool :=
  match ev with EvCheckpoint _ => true | _ => false end.

Definition is_upsert (ev : Event) : bool :=
  match ev with EvUpsert _ _ => true | _ => false end.

(** The events of the export workflow proper: requests, sleeps and log
    lines. *)
Definition is_workflow (ev : Event) : bool :=
  negb (is_checkpoint ev) && negb (is_upsert ev).

(** The log lines of [update]. *)
Definition skip_message : fstring :=
  [Lit "No new time window to sync; skipping"].

Definition upserted_message (row_count start_ts end_ts : Z) : fstring :=
  [Lit "Upserted "; Val (PInt row_count); Lit " rows for window ";
   Val (PInt start_ts); Lit "-"; Val (PInt end_ts)].

(** The [status] that [_poll_job] reads off a response. *)
Definition status_of (resp : Response) : PyVal :=
  match json resp with
  | Some (PDict info) => from_option id (PStr "") (info !! "status")
  | _ => PNone
  end.

(** A 2xx response with a JSON object whose status is none of
    ["complete"], ["failed"], ["error"]: the job is still running. *)
Definition still_running (resp : Response) : bool :=
  (200 <=? status_code resp) && (status_code resp <? 300)
  && match json resp with
     | Some (PDict _) =>
         hashable (status_of resp)
         && negb (eq_str (status_of resp) "complete")
         && negb (eq_str (status_of resp) "failed")
         && negb (eq_str (status_of resp) "error")
     | _ => false
     end.

(** A 2xx response with a JSON object whose status is the string [s]. *)
Definition reports (resp : Response) (s : string) : Prop :=
  200 <= status_code resp < 300
  /\ exists info, json resp = Some (PDict info)
                  /\ info !! "status" = Some (PStr s).

(** The log line and the error messages of [_poll_job]. *)
Definition attempt_message (attempt : nat) (status : PyVal) : fstring :=
  [Lit "Poll attempt "; Val (PInt (Z.of_nat attempt + 1));
   Lit ": status="; Val status].

Definition failed_message (job_id status : PyVal) : fstring :=
  [Lit "Export job "; Val job_id; Lit " failed with status '"; Val status;
   Lit "'"].

Definition timeout_message (job_id : PyVal) (poll_interval max_tries : Z)
    : fstring :=
  [Lit "Export job "; Val job_id; Lit " did not complete after ";
   Val (PInt (max_tries * poll_interval)); Lit " seconds"].

(** The events of one attempt after which the loop goes on. *)
Definition retry_events (job_id : PyVal) (poll_interval : Z) (attempt : nat)
    (resp : Response) : list Event :=
  if status_code resp =? 404 then [EvPoll job_id; EvSleep poll_interval]
  else [EvPoll job_id; EvLog (attempt_message attempt (status_of resp));
        EvSleep poll_interval].

Definition is_poll (ev : Event) : bool :=
  match ev with EvPoll _ => true | _ => false end.

Definition is_sleep (ev : Event) : bool :=
  match ev with EvSleep _ => true | _ => false end.

(** How many events of [evs] satisfy [f]. *)
Definition count (f : Event -> bool) (evs : list Event) : nat :=
  length (filter (fun ev => f ev = true) evs).

(** What a computation can raise. *)
Definition raises_only {A} (Q : Exn -> Prop) (m : M A) : Prop :=
  forall c, match (m c).1.1 with Raise e => Q e | Ok _ => True end.

(** The keys [_poll_job] reads from the configuration. *)
Definition poll_credentials (conf : dict) : Prop :=
  is_Some (conf !! "access_token") /\ is_Some (conf !! "app_id")
  /\ is_Some (conf !! "client_id").

(** What the window [(start_ts, end_ts)] requires of an event of the
    run: the enqueue request is for this window and carries the parsed
    attribute ids, and a checkpoint holds the window's end. *)
Definition window_event (conf : dict) (start_ts end_ts : Z) (ev : Event)
    : Prop :=
  match ev with
  | EvEnqueue payload =>
      payload !! "start_time" = Some (PInt start_ts)
      /\ payload !! "end_time" = Some (PInt end_ts)
      /\ payload !! "attribute_ids"
         = Some (attribute_ids_of (dict_get conf "attribute_ids"))
  | EvCheckpoint new_state => new_state = {["last_end_time" := PInt end_ts]}
  | _ => True
  end.

(** A setting that is absent, or that [int] rejects with one of the two
    exceptions [_as_int] catches. *)
Definition uncoercible (conf : dict) (key : string) : Prop :=
  conf !! key = None
  \/ py_int (dict_get conf key) = Raise TypeError
  \/ py_int (dict_get conf key) = Raise ValueError.

(** A run that synced its window: the window [(start_ts, end_ts)] is
    not empty; submission, polling and the download returned; the
    downloaded payload decoded to [rows] without error; and the loop over
    the rows ran to its end, the sink taking the upsert of every row.
    [pre] is what the run emitted before the first upsert, and [c_end]
    how far it had read into the environment after the last one. *)
Definition window_synced (env : Env) (conf state : dict) (c : Counters)
    (start_ts end_ts : Z) (rows : list row) (pre : list Event)
    (c_end : Counters) : Prop :=
  exists c1 job_id c2 evs2 job_info c3 evs3 download_url csv_text c4 evs4
         row_count evs5,
    compute_window env conf state c = (Ok (start_ts, end_ts), c1, [])
    /\ start_ts < end_ts
    /\ _enqueue_job env conf start_ts end_ts
         (attribute_ids_of (dict_get conf "attribute_ids")) c1
       = (Ok job_id, c2, evs2)
    /\ _poll_job env conf job_id 10 60 c2 = (Ok job_info, c3, evs3)
    /\ subscript job_info "download_url" c3 = (Ok download_url, c3, [])
    /\ _download_csv env conf job_id download_url c3 = (Ok csv_text, c4, evs4)
    /\ DictReader csv_text = (rows, None)
    /\ upsert_rows env conf rows 0 c4 = (Ok row_count, c_end, evs5)
    /\ pre = evs2 ++ evs3 ++ evs4.

(** The claim's words: the comma-separated segments of the string, each
    with its surrounding whitespace stripped. *)
Definition stripped_segments (s : string) : list string :=
  strip <$> split "," s.

(** The sum over [evs] of the weight [w] of each event. *)
Fixpoint weight (w : Event -> nat) (evs : list Event) : nat :=
  match evs with
  | [] => 0
  | ev :: rest => w ev + weight w rest
  end.

(** Every run of [m] makes at most [n] HTTP requests and produces events
    of total weight at most [b]. *)
Definition within {A} (n : nat) (w : Event -> nat) (b : nat) (m : M A)
    : Prop :=
  forall c,
    (requests (m c).1.2 <= requests c + n)%nat /\ (weight w (m c).2 <= b)%nat.

(** Weight 1 for the events that [f] selects. *)
Definition one_if (f : Event -> bool) (ev : Event) : nat :=
  if f ev then 1 else 0.

(** The seconds an event sleeps. *)
Definition sleep_seconds (ev : Event) : nat :=
  match ev with EvSleep secs => Z.to_nat secs | _ => 0 end.

Definition is_enqueue (ev : Event) : bool :=
  match ev with EvEnqueue _ => true | _ => false end.

Definition is_download (ev : Event) : bool :=
  match ev with EvDownload _ _ => true | _ => false end.

Definition is_log (ev : Event) : bool :=
  match ev with EvLog _ => true | _ => false end.

(** The first of [keys] that [conf] does not hold. *)
Fixpoint first_missing (keys : list string) (conf : dict) : option string :=
  match keys with
  | [] => None
  | key :: rest =>
      match conf !! key with
      | None => Some key
      | Some _ => first_missing rest conf
      end
  end.

(** The body of the enqueue request, lines 25-30. *)
Definition enqueue_payload (dataset_id attribute_ids : PyVal)
    (start_ts end_ts : Z) : dict :=
  <["dataset_id" := dataset_id]>
  (<["attribute_ids" := attribute_ids]>
  (<["start_time" := PInt start_ts]>
  (<["end_time" := PInt end_ts]> ∅))).

(** The status [raise_for_status] raises for. *)
Definition error_status (resp : Response) : Prop :=
  400 <= status_code resp < 600.

(** A value that [+ 1] accepts: an [int], or a [bool], which is one. *)
Definition is_number (v : PyVal) : bool :=
  match v with
  | PInt _ | PBool _ => true
  | _ => false
  end.

(** [ch in s] *)
Fixpoint has_char (ch : ascii) (s : string) : bool :=
  match s with
  | EmptyString => false
  | String c s' => Ascii.eqb c ch || has_char ch s'
  end.

(** An attribute id that parsing leaves alone: not empty, without a
    comma, without whitespace at either end. *)
Definition well_formed_id (x : string) : Prop :=
  x <> "" /\ has_char "," x = false /\ strip x = x.

(** The phase of the workflow an event belongs to: submission, polling,
    download, row emission, checkpoint.  Log lines belong to none. *)
Definition phase (ev : Event) : nat :=
  match ev with
  | EvLog _ => 0
  | EvEnqueue _ => 0
  | EvPoll _ => 1
  | EvSleep _ => 1
  | EvDownload _ _ => 2
  | EvUpsert _ _ => 3
  | EvCheckpoint _ => 4
  end.

(** Log lines apart, no event is followed by one of an earlier phase. *)
Definition in_order (evs : list Event) : Prop :=
  forall i j a b,
    (i < j)%nat -> evs !! i = Some a -> evs !! j = Some b ->
    is_log a = false -> is_log b = false ->
    (phase a <= phase b)%nat.

(** The events of every run of [m] are in order, and their phases lie
    between [lo] and [hi]. *)
Definition staged {A} (lo hi : nat) (m : M A) : Prop :=
  forall c,
    in_order (m c).2
    /\ Forall (fun ev => is_log ev = false -> (lo <= phase ev <= hi)%nat)
         (m c).2.

(** * Scenarios

    Configurations, states and environments on which the properties are
    instantiated. *)

(** A configuration with every required key. *)
Definition demo_conf : dict :=
  <["access_token" := PStr "token"]>
  (<["app_id" := PStr "app"]>
  (<["client_id" := PStr "client"]>
  (<["dataset_id" := PStr "conversation"]>
  (<["attribute_ids" := PStr "a, b,c"]>
  (<["window_seconds" := PInt 3600]> ∅))))).

(** Nothing read from the environment yet. *)
Definition c0 : Counters := mkCounters 0 0 0.

(** A 200 response whose body is the JSON object [fields]. *)
Definition json_response (fields : dict) : Response :=
  mkResponse 200 (Some (PDict fields)) None.

Definition not_found : Response := mkResponse 404 None None.

Definition pending_response : Response :=
  json_response {["status" := PStr "pending"]}.

Definition complete_info : dict :=
  <["status" := PStr "complete"]>
  {["download_url" := PStr "https://downloads.example/export.csv"]}.

Definition failed_response : Response :=
  json_response {["status" := PStr "failed"]}.

(** Every poll finds the job pending. *)
Definition env_pending : Env :=
  mkEnv (fun _ => 5000) (fun _ => Some pending_response) (fun _ => true).

(** The replies [404, 404, "pending", "complete"]. *)
Definition env_slow_start : Env :=
  mkEnv (fun _ => 5000)
    (fun i => match i with
              | 0%nat | 1%nat => Some not_found
              | 2%nat => Some pending_response
              | _ => Some (json_response complete_info)
              end)
    (fun _ => true).

(** One pending poll, then the job fails. *)
Definition env_failing : Env :=
  mkEnv (fun _ => 5000)
    (fun i => match i with
              | 0%nat => Some pending_response
              | _ => Some failed_response
              end)
    (fun _ => true).

(** The line feed. *)
Definition LF : string := String "010" EmptyString.

(** The payload of the spec's decoding example: a header line and the
    line [1,]. *)
Definition demo_csv : string := String.concat "" ["a,b"; LF; "1,"; LF].

(** A run in which the job is enqueued, found complete at the first
    poll, and downloaded; the clock reads 5000. *)
Definition env_export : Env :=
  mkEnv (fun _ => 5000)
    (fun i => match i with
              | 0%nat => Some (json_response {["job_identifier" := PStr "job-1"]})
              | 1%nat => Some (json_response complete_info)
              | _ => Some (mkResponse 200 None (Some demo_csv))
              end)
    (fun _ => true).

(** A configuration whose [window_seconds] is not a number and which has
    no [initial_start_time]. *)
Definition conf_bad_span : dict :=
  <["window_seconds" := PStr "an hour"]> demo_conf.

(** A configuration whose initial start is the text of a number. *)
Definition conf_start_4000 : dict :=
  <["initial_start_time" := PStr "4000"]> demo_conf.

(** Every request is answered by a server error. *)
Definition env_server_error : Env :=
  mkEnv (fun _ => 5000) (fun _ => Some (mkResponse 500 None None))
    (fun _ => true).

(** A configuration that asks for a sync from the epoch. *)
Definition conf_start_zero : dict :=
  <["initial_start_time" := PInt 0]> demo_conf.

(** The checkpoint of the spec's end-to-end scenario. *)
Definition state_1000 : dict := {["last_end_time" := PInt 1000]}.

(** The enqueue request of the export scenario. *)
Definition demo_payload : dict :=
  <["dataset_id" := PStr "conversation"]>
  (<["attribute_ids" := PList [PStr "a"; PStr "b"; PStr "c"]]>
  (<["start_time" := PInt 1001]>
  (<["end_time" := PInt 4601]> ∅))).

(** A configuration without its token. *)
Definition conf_no_token : dict := delete "access_token" demo_conf.

(** A checkpoint written by something else. *)
Definition state_foreign : dict := {["cursor" := PInt 7]}.

(** A checkpoint whose time is text. *)
Definition state_text : dict := {["last_end_time" := PStr "1000"]}.

(** A configuration with a negative span. *)
Definition conf_negative_span : dict :=
  <["window_seconds" := PInt (-60)]> demo_conf.

(** A configuration without attribute ids. *)
Definition conf_no_attributes : dict := delete "attribute_ids" demo_conf.

(** A completed job whose information lacks the download URL. *)
Definition env_no_url : Env :=
  mkEnv (fun _ => 5000)
    (fun i => match i with
              | 0%nat => Some (json_response {["job_identifier" := PStr "job-1"]})
              | _ => Some (json_response {["status" := PStr "complete"]})
              end)
    (fun _ => true).

(** A payload with a header, one good line, and a line with a bare
    carriage return inside a field. *)
Definition broken_csv : string :=
  String.concat "" ["a"; LF; "1"; LF; "2"; String "013" "x"; LF].

(** The export scenario with the broken payload for a download. *)
Definition env_broken_csv : Env :=
  mkEnv (fun _ => 5000)
    (fun i => match i with
              | 0%nat => Some (json_response {["job_identifier" := PStr "job-1"]})
              | 1%nat => Some (json_response complete_info)
              | _ => Some (mkResponse 200 None (Some broken_csv))
              end)
    (fun _ => true).

(** The export scenario with an empty payload for a download: no row
    to decode. *)
Definition env_empty_export : Env :=
  mkEnv (fun _ => 5000)
    (fun i => match i with
              | 0%nat => Some (json_response {["job_identifier" := PStr "job-1"]})
              | 1%nat => Some (json_response complete_info)
              | _ => Some (mkResponse 200 None (Some EmptyString))
              end)
    (fun _ => true).

(** * Properties *)

(** ** Running computations *)

Lemma bind_run {A B} (m : M A) (k : A -> M B) (c : Counters) :
  (m ≫= k) c =
  match m c with
  | (Ok a, c1, evs1) => let '(r, c2, evs2) := k a c1 in (r, c2, evs1 ++ evs2)
  | (Raise e, c1, evs1) => (Raise e, c1, evs1)
  end.
Proof. reflexivity. Qed.

Lemma bind_ok {A B} (m : M A) (k : A -> M B) c a c1 evs1 :
  m c = (Ok a, c1, evs1) ->
  (m ≫= k) c = let '(r, c2, evs2) := k a c1 in (r, c2, evs1 ++ evs2).
Proof. intros H. rewrite bind_run, H. reflexivity. Qed.

Lemma bind_raise {A B} (m : M A) (k : A -> M B) c e c1 evs1 :
  m c = (Raise e, c1, evs1) -> (m ≫= k) c = (Raise e, c1, evs1).
Proof. intros H. rewrite bind_run, H. reflexivity. Qed.

(** What a run of [m ≫= k] can have been. *)
Lemma bind_inv {A B} (m : M A) (k : A -> M B) c r c' evs :
  (m ≫= k) c = (r, c', evs) ->
  (exists e, r = Raise e /\ m c = (Raise e, c', evs)) \/
  (exists a c1 evs1 evs2,
      m c = (Ok a, c1, evs1) /\ k a c1 = (r, c', evs2) /\ evs = evs1 ++ evs2).
Proof.
  rewrite bind_run. destruct (m c) as [[[a|e] c1] evs1].
  - destruct (k a c1) as [[r2 c2] evs2] eqn:Hk. intros [= <- <- <-].
    right. exists a, c1, evs1, evs2. auto.
  - intros [= <- <- <-]. left. exists e. auto.
Qed.

(** Unfolds the plumbing of the monad, leaving the tests of the code. *)
Ltac run :=
  cbv [mbind M_bind bind ret raise lift emit log_info checkpoint now tick sent];
  cbn [fst snd app ticks requests offered].

(** ** The window (lines 111-123) *)

Lemma int_of_digits_cases negative body :
  (exists n, int_of_digits negative body = Ok n)
  \/ int_of_digits negative body = Raise ValueError.
Proof.
  unfold int_of_digits. destruct body as [|ch rest]; [auto|].
  destruct (Ascii.eqb ch "_"); [auto|].
  destruct (digits_value 0 0 false (String ch rest)) as [[v k]|]; [|auto].
  destruct (int_max_str_digits <? k)%nat; eauto.
Qed.

(** [int] either returns or raises one of the two exceptions that
    [_as_int] catches. *)
Lemma py_int_cases (val : PyVal) :
  (exists n, py_int val = Ok n)
  \/ py_int val = Raise TypeError \/ py_int val = Raise ValueError.
Proof.
  destruct val as [|b|n|s|l|d]; simpl; eauto.
  unfold int_of_str. destruct (rstrip_by _ _) as [|ch body]; [auto|].
  destruct (Ascii.eqb ch "-");
    [destruct (int_of_digits_cases true body); auto|].
  destruct (Ascii.eqb ch "+");
    [destruct (int_of_digits_cases false body); auto|].
  destruct (int_of_digits_cases false (String ch body)); auto.
Qed.

Lemma as_int_fallback (val : PyVal) (default : option Z) :
  py_int val = Raise TypeError \/ py_int val = Raise ValueError ->
  _as_int val default = Ok default.
Proof. unfold _as_int. intros [-> | ->]; reflexivity. Qed.

Lemma as_int_window_seconds (val : PyVal) :
  exists W, _as_int val (Some 3600) = Ok (Some W).
Proof.
  destruct (py_int_cases val) as [[n H]|H].
  - exists n. unfold _as_int. rewrite H. reflexivity.
  - exists 3600. apply as_int_fallback, H.
Qed.

Lemma nonempty_of_lookup (state : dict) key v :
  state !! key = Some v -> negb (Nat.eqb (size state) 0) = true.
Proof.
  intros H. destruct (Nat.eqb_spec (size state) 0) as [E|]; [|reflexivity].
  apply map_size_empty_iff in E. subst. rewrite lookup_empty in H. discriminate.
Qed.

Lemma compute_window_resume env (conf state : dict) c t W :
  state !! "last_end_time" = Some (PInt t) ->
  _as_int (dict_get conf "window_seconds") (Some 3600) = Ok (Some W) ->
  compute_window env conf state c
  = (Ok (t + 1, Z.min (t + 1 + W) (clock env (ticks c))), tick c, []).
Proof.
  intros Hs HW. unfold compute_window.
  rewrite (nonempty_of_lookup _ _ _ Hs), HW.
  unfold getitem. rewrite Hs. reflexivity.
Qed.

Lemma compute_window_initial env (conf : dict) c W s0 :
  _as_int (dict_get conf "window_seconds") (Some 3600) = Ok (Some W) ->
  _as_int (dict_get conf "initial_start_time") None = Ok s0 ->
  compute_window env conf ∅ c
  = if not_int s0 then
      (Ok (clock env (ticks c) - one_day,
           Z.min (clock env (ticks c) - one_day + W) (clock env (S (ticks c)))),
       tick (tick c), [])
    else
      (Ok (default 0 s0, Z.min (default 0 s0 + W) (clock env (ticks c))),
       tick c, []).
Proof.
  intros HW Hs. unfold compute_window. rewrite HW, Hs, map_size_empty.
  run. destruct (not_int s0); reflexivity.
Qed.

(** Computing the window reads the clock and nothing else. *)
Lemma compute_window_silent env (conf state : dict) c r c' evs :
  compute_window env conf state c = (r, c', evs) ->
  evs = [] /\ requests c' = requests c /\ offered c' = offered c.
Proof.
  destruct (as_int_window_seconds (dict_get conf "window_seconds")) as [W HW].
  unfold compute_window. rewrite HW.
  destruct (negb (Nat.eqb (size state) 0)).
  - unfold getitem, add_int. run.
    destruct (state !! "last_end_time") as [[]|]; run;
      intros [= <- <- <-]; auto.
  - destruct (py_int_cases (dict_get conf "initial_start_time")) as [[n H]|H].
    + unfold _as_int. rewrite H. run. unfold not_int.
      destruct (n =? 0); intros [= <- <- <-]; auto.
    + rewrite (as_int_fallback _ None H). run. intros [= <- <- <-]; auto.
Qed.

Lemma absent_uncoercible (conf : dict) key :
  conf !! key = None -> py_int (dict_get conf key) = Raise TypeError.
Proof. unfold dict_get. intros ->. reflexivity. Qed.

(** ** Which events a computation can produce *)

Section Emits.

Context (P : Event -> Prop) (env : Env).

Lemma emits_ret {A} (a : A) : emits P (ret a).
Proof. intros c. constructor. Qed.

Lemma emits_raise {A} (e : Exn) : emits P (raise e : M A).
Proof. intros c. constructor. Qed.

Lemma emits_lift {A} (r : Res A) : emits P (lift r).
Proof. intros c. constructor. Qed.

Lemma emits_now : emits P (now env).
Proof. intros c. constructor. Qed.

Lemma emits_emit ev : P ev -> emits P (emit ev).
Proof. intros H c. repeat constructor. exact H. Qed.

Lemma emits_http ev : P ev -> emits P (http env ev).
Proof.
  intros H c. unfold http. destruct (network env (requests c));
    repeat constructor; exact H.
Qed.

Lemma emits_upsert table data :
  P (EvUpsert table data) -> emits P (upsert env table data).
Proof.
  intros H c. unfold upsert. destruct (sink env (offered c));
    repeat constructor; exact H.
Qed.

Lemma emits_sleep secs : P (EvSleep secs) -> emits P (sleep secs).
Proof.
  intros H. unfold sleep. destruct (secs <? 0);
    [apply emits_raise | apply emits_emit, H].
Qed.

Lemma emits_bind {A B} (m : M A) (k : A -> M B) :
  emits P m -> (forall a, emits P (k a)) -> emits P (m ≫= k).
Proof.
  intros Hm Hk c. rewrite bind_run. specialize (Hm c).
  destruct (m c) as [[[a|e] c1] evs1]; simpl in *; [|exact Hm].
  specialize (Hk a c1). destruct (k a c1) as [[r c2] evs2]; simpl in *.
  apply Forall_app; auto.
Qed.

Lemma emits_getitem (d : dict) key : emits P (getitem d key).
Proof.
  unfold getitem. destruct (d !! key); [apply emits_ret | apply emits_raise].
Qed.

Lemma emits_subscript v key : emits P (subscript v key).
Proof.
  destruct v; simpl; try apply emits_raise. apply emits_getitem.
Qed.

Lemma emits_py_get v key dflt : emits P (py_get v key dflt).
Proof. destruct v; simpl; try apply emits_raise. apply emits_ret. Qed.

Lemma emits_add_int v n : emits P (add_int v n).
Proof. destruct v; simpl; try apply emits_raise; apply emits_ret. Qed.

Lemma emits_raise_for_status resp : emits P (raise_for_status resp).
Proof.
  unfold raise_for_status.
  destruct (_ && _); [apply emits_raise | apply emits_ret].
Qed.

Lemma emits_resp_json resp : emits P (resp_json resp).
Proof.
  unfold resp_json. destruct (json resp); [apply emits_ret | apply emits_raise].
Qed.

Lemma emits_in_failed_or_error status : emits P (in_failed_or_error status).
Proof.
  unfold in_failed_or_error.
  destruct (hashable status); [apply emits_ret | apply emits_raise].
Qed.

End Emits.

(** One step through a computation built from the operations above. *)
Ltac emits_step :=
  first
    [ apply emits_bind; [|intros ?]
    | apply emits_ret | apply emits_raise | apply emits_lift | apply emits_now
    | apply emits_getitem | apply emits_subscript | apply emits_py_get
    | apply emits_add_int | apply emits_raise_for_status
    | apply emits_resp_json | apply emits_in_failed_or_error
    | apply emits_emit | apply emits_http | apply emits_upsert
    | apply emits_sleep
    | match goal with
      | |- emits _ (if ?b then _ else _) => destruct b
      | |- emits _ (match ?x with _ => _ end) => destruct x
      end ].

Section HelpersEmit.

Context (P : Event -> Prop) (env : Env).
Hypothesis P_log : forall msg, P (EvLog msg).

Lemma enqueue_emits (conf : dict) start_ts end_ts attribute_ids :
  (forall payload : dict,
      payload !! "attribute_ids" = Some attribute_ids ->
      payload !! "start_time" = Some (PInt start_ts) ->
      payload !! "end_time" = Some (PInt end_ts) ->
      P (EvEnqueue payload)) ->
  emits P (_enqueue_job env conf start_ts end_ts attribute_ids).
Proof.
  intros HP. unfold _enqueue_job, log_info.
  repeat emits_step; auto.
Qed.

Lemma poll_loop_emits job_id poll_interval attempts :
  P (EvPoll job_id) -> P (EvSleep poll_interval) ->
  emits P (poll_loop env job_id poll_interval attempts).
Proof.
  intros Hpoll Hsleep. induction attempts as [|attempt rest IH]; simpl.
  - apply emits_ret.
  - unfold log_info. repeat emits_step; auto.
Qed.

Lemma poll_job_emits (conf : dict) job_id poll_interval max_tries :
  P (EvPoll job_id) -> P (EvSleep poll_interval) ->
  emits P (_poll_job env conf job_id poll_interval max_tries).
Proof.
  intros Hpoll Hsleep. unfold _poll_job.
  do 3 (apply emits_bind; [apply emits_getitem | intros _]).
  apply emits_bind; [by apply poll_loop_emits | intros r].
  repeat emits_step.
Qed.

Lemma download_emits (conf : dict) job_id download_url :
  P (EvDownload job_id download_url) ->
  emits P (_download_csv env conf job_id download_url).
Proof.
  intros HP. unfold _download_csv, log_info. repeat emits_step; auto.
Qed.

Lemma upsert_rows_emits (conf : dict) rows row_count :
  (forall table data, P (EvUpsert table data)) ->
  emits P (upsert_rows env conf rows row_count).
Proof.
  intros HP. revert row_count.
  induction rows as [|r rest IH]; intros row_count; simpl.
  - apply emits_ret.
  - repeat emits_step; auto.
Qed.

End HelpersEmit.

Lemma raises_within_emits {A} P (m : M A) : emits P m -> raises_within P m.
Proof.
  intros H c. specialize (H c). destruct (m c) as [[[a|e] c1] evs]; auto.
Qed.

Lemma raises_within_bind {A B} P (m : M A) (k : A -> M B) :
  emits P m -> (forall a, raises_within P (k a)) ->
  raises_within P (m ≫= k).
Proof.
  intros Hm Hk c. rewrite bind_run. specialize (Hm c).
  destruct (m c) as [[[a|e] c1] evs1]; simpl in *; [|exact Hm].
  specialize (Hk a c1). destruct (k a c1) as [[[b|e] c2] evs2]; [exact I|].
  apply Forall_app; auto.
Qed.

Lemma raises_within_emit P ev : raises_within P (emit ev).
Proof. intros c. exact I. Qed.

(** ** Runs of the helpers that return *)

Lemma download_returns env (conf : dict) job_id download_url c text c' evs :
  _download_csv env conf job_id download_url c = (Ok text, c', evs) ->
  exists resp,
    network env (requests c) = Some resp /\ content resp = Some text
    /\ c' = sent 1 c
    /\ evs = [EvLog [Lit "Downloading exported CSV data"];
              EvDownload job_id download_url].
Proof.
  unfold _download_csv, getitem, http, raise_for_status.
  destruct (conf !! "access_token"); [|run; discriminate].
  destruct (conf !! "app_id"); [|run; discriminate].
  run. destruct (network env (requests c)) as [resp|]; [|discriminate].
  destruct (_ && _); [discriminate|].
  destruct (content resp) as [t|] eqn:Hcontent; [|discriminate].
  intros [= <- <- <-]. exists resp. auto.
Qed.

Lemma upsert_rows_returns env (conf : dict) rows row_count c n c' evs :
  upsert_rows env conf rows row_count c = (Ok n, c', evs) ->
  n = row_count + Z.of_nat (length rows)
  /\ requests c' = requests c
  /\ evs = upsert_event conf <$> rows.
Proof.
  revert row_count c evs. induction rows as [|r rest IH]; intros row_count c evs.
  - simpl. intros [= <- <- <-]. split; [lia|auto].
  - cbn [upsert_rows]. unfold getitem.
    destruct (conf !! "dataset_id") as [table|] eqn:Hds; [|run; discriminate].
    unfold upsert. run. destruct (sink env (offered c)); [|discriminate].
    destruct (upsert_rows env conf rest (row_count + 1) _) as [[r2 c2] evs2] eqn:Hrest.
    intros [= -> <- <-]. apply IH in Hrest as (-> & Hreq & ->).
    simpl in Hreq. rewrite length_cons. split; [lia|]. split; [exact Hreq|].
    rewrite fmap_cons. f_equal.
    unfold upsert_event, dict_get. rewrite Hds. reflexivity.
Qed.

Lemma subscript_silent v key c r c' evs :
  subscript v key c = (r, c', evs) -> c' = c /\ evs = [].
Proof.
  destruct v; simpl; unfold getitem; try (intros [= <- <- <-]; by auto).
  destruct (_ !! _); intros [= <- <- <-]; auto.
Qed.

Lemma emits_of_run {A} P (m : M A) c r c' evs :
  emits P m -> m c = (r, c', evs) -> Forall P evs.
Proof. intros H E. specialize (H c). rewrite E in H. exact H. Qed.

(** ** Runs of [update] *)

Lemma compute_window_emits P env (conf state : dict) :
  emits P (compute_window env conf state).
Proof. unfold compute_window. repeat emits_step. Qed.

(** A run of [update] that raises has emitted no checkpoint. *)
Lemma update_raises_without_checkpoint env (conf state : dict) :
  raises_within (fun ev => is_checkpoint ev = false) (update env conf state).
Proof.
  unfold update, sync_window.
  apply raises_within_bind; [apply compute_window_emits | intros w].
  destruct (w.1 >=? w.2); [apply raises_within_emit|].
  apply raises_within_bind; [by apply enqueue_emits | intros job_id].
  apply raises_within_bind; [by apply poll_job_emits | intros job_info].
  apply raises_within_bind; [apply emits_subscript | intros download_url].
  apply raises_within_bind; [by apply download_emits | intros csv_text].
  apply raises_within_bind; [by apply upsert_rows_emits | intros row_count].
  apply raises_within_bind; [repeat emits_step | intros _].
  apply raises_within_bind; [by apply emits_emit | intros _].
  apply raises_within_emit.
Qed.

(** [H] is a run of [m ≫= k] that returned: then [m] returned, [Hm], and
    [H] becomes the run of [k]. *)
Tactic Notation "returned" hyp(H) "as" simple_intropattern(a)
    simple_intropattern(c1) simple_intropattern(evs1) ident(Hm) :=
  apply bind_inv in H as [(? & ? & _) | (a & c1 & evs1 & ? & Hm & H & ->)];
  [discriminate|].

(** A run of [update] that returns either found no window, or went
    through the whole workflow. *)
Lemma update_returns env (conf state : dict) c c' evs :
  update env conf state c = (Ok tt, c', evs) ->
  (exists start_ts end_ts,
      compute_window env conf state c = (Ok (start_ts, end_ts), c', [])
      /\ end_ts <= start_ts
      /\ evs = [EvLog skip_message])
  \/
  (exists start_ts end_ts c1 pre job_id download_url resp text rows,
      compute_window env conf state c = (Ok (start_ts, end_ts), c1, [])
      /\ start_ts < end_ts
      /\ network env (pred (requests c')) = Some resp
      /\ content resp = Some text
      /\ DictReader text = (rows, None)
      /\ Forall (fun ev => is_workflow ev = true) pre
      /\ evs = pre ++ [EvDownload job_id download_url]
               ++ (upsert_event conf <$> rows)
               ++ [EvLog (upserted_message (Z.of_nat (length rows))
                            start_ts end_ts);
                   EvCheckpoint {["last_end_time" := PInt end_ts]}]).
Proof.
  unfold update. intros H. returned H as [start_ts end_ts] c1 evs1 Hwin.
  cbn [fst snd] in H. unfold sync_window in H.
  destruct (compute_window_silent _ _ _ _ _ _ _ Hwin) as (-> & _ & _).
  destruct (start_ts >=? end_ts) eqn:Hge.
  - left. exists start_ts, end_ts. apply Z.geb_le in Hge.
    revert H. run. intros H.
    assert (c' = c1) as -> by congruence.
    split; [exact Hwin|]. split; [exact Hge|]. unfold skip_message. congruence.
  - right. assert (start_ts < end_ts) as Hlt.
    { destruct (Z.geb_spec start_ts end_ts); [discriminate | lia]. }
    returned H as job_id c2 evs2 Henq.
    returned H as job_info c3 evs3 Hpoll.
    returned H as download_url c4 evs4 Hsub.
    returned H as csv_text c5 evs5 Hdl.
    returned H as row_count c6 evs6 Hrows.
    apply (emits_of_run (fun ev => is_workflow ev = true)) in Henq;
      [|by apply enqueue_emits].
    apply (emits_of_run (fun ev => is_workflow ev = true)) in Hpoll;
      [|by apply poll_job_emits].
    apply subscript_silent in Hsub as [-> ->].
    apply download_returns in Hdl as (resp & Hnet & Hcontent & -> & ->).
    apply upsert_rows_returns in Hrows as (-> & Hreq & ->).
    destruct (DictReader csv_text) as [rows err] eqn:HDR.
    cbn [fst snd] in H |- *.
    destruct err as [e|]; [revert H; run; discriminate|].
    revert H. run. intros H.
    assert (c' = c6) as -> by congruence.
    match type of H with
    | (_, _, ?l) = (_, _, ?x) => assert (x = l) as -> by congruence
    end.
    exists start_ts, end_ts, c1,
      (evs2 ++ evs3 ++ [EvLog [Lit "Downloading exported CSV data"]]),
      job_id, download_url, resp, csv_text, rows.
    split; [exact Hwin|]. split; [exact Hlt|].
    split; [rewrite Hreq; exact Hnet|].
    split; [exact Hcontent|]. split; [exact HDR|].
    split.
    + repeat (apply Forall_app; split); auto.
    + rewrite Z.add_0_l. unfold upserted_message.
      rewrite <- !app_assoc. reflexivity.
Qed.

(** ** The polling loop *)

Lemma count_app f evs1 evs2 : count f (evs1 ++ evs2) = (count f evs1 + count f evs2)%nat.
Proof. unfold count. rewrite filter_app, length_app. reflexivity. Qed.

Lemma retry_events_counts job_id poll_interval attempt resp :
  count is_poll (retry_events job_id poll_interval attempt resp) = 1%nat
  /\ count is_sleep (retry_events job_id poll_interval attempt resp) = 1%nat.
Proof. unfold retry_events. destruct (_ =? 404); split; reflexivity. Qed.

Section Polling.

Context (env : Env) (job_id : PyVal) (poll_interval : Z).
Hypothesis interval_nonneg : 0 <= poll_interval.

Lemma sleep_run c : sleep poll_interval c = (Ok tt, c, [EvSleep poll_interval]).
Proof.
  unfold sleep. destruct (Z.ltb_spec poll_interval 0); [lia | reflexivity].
Qed.

(** After a 404, and after a response that says the job is still
    running, the loop sleeps and goes on with the next attempt. *)
Lemma poll_loop_retry attempt rest c resp :
  network env (requests c) = Some resp ->
  status_code resp = 404 \/ still_running resp = true ->
  poll_loop env job_id poll_interval (attempt :: rest) c
  = let '(r, c', evs) := poll_loop env job_id poll_interval rest (sent 1 c) in
    (r, c', retry_events job_id poll_interval attempt resp ++ evs).
Proof.
  intros Hnet Hresp. cbn [poll_loop]. rewrite bind_run.
  unfold http. rewrite Hnet. unfold retry_events.
  destruct (Z.eqb_spec (status_code resp) 404) as [E|NE].
  - rewrite bind_run, sleep_run.
    change (mkCounters _ _ _) with (sent 1 c).
    destruct (poll_loop _ _ _ rest _) as [[r c'] evs]. reflexivity.
  - destruct Hresp as [|Hrun]; [contradiction|].
    unfold still_running, status_of in *.
    apply andb_prop in Hrun as [Hcode Hbody].
    apply andb_prop in Hcode as [Hlo Hhi].
    apply Z.leb_le in Hlo. apply Z.ltb_lt in Hhi.
    destruct (json resp) as [[| | | | |info]|] eqn:Hjson; try discriminate.
    repeat (apply andb_prop in Hbody as [Hbody ?]).
    repeat match goal with H : negb _ = true |- _ => apply negb_true_iff in H end.
    unfold raise_for_status, resp_json, in_failed_or_error.
    rewrite Hjson.
    destruct (Z.leb_spec 400 (status_code resp)); [lia|].
    cbn [andb]. unfold py_get. run.
    rewrite H1, Hbody, H0, H. cbn [orb]. rewrite sleep_run.
    change (mkCounters _ _ _) with (sent 1 c).
    destruct (poll_loop _ _ _ rest _) as [[r c'] evs]. reflexivity.
Qed.

(** A response that says the job is complete ends the loop. *)
Lemma poll_loop_complete attempt rest c resp info :
  network env (requests c) = Some resp ->
  200 <= status_code resp < 300 ->
  json resp = Some (PDict info) ->
  info !! "status" = Some (PStr "complete") ->
  poll_loop env job_id poll_interval (attempt :: rest) c
  = (Ok (Some (PDict info)), sent 1 c,
     [EvPoll job_id; EvLog (attempt_message attempt (PStr "complete"))]).
Proof.
  intros Hnet Hcode Hjson Hstatus. cbn [poll_loop]. rewrite bind_run.
  unfold http. rewrite Hnet.
  destruct (Z.eqb_spec (status_code resp) 404) as [E|NE]; [lia|].
  unfold raise_for_status, resp_json. rewrite Hjson.
  destruct (Z.leb_spec 400 (status_code resp)); [lia|].
  cbn [andb]. unfold py_get. run. rewrite Hstatus. reflexivity.
Qed.

(** A response that says the job failed ends the loop with an error. *)
Lemma poll_loop_failed attempt rest c resp status :
  network env (requests c) = Some resp ->
  reports resp status ->
  status = "failed" \/ status = "error" ->
  poll_loop env job_id poll_interval (attempt :: rest) c
  = (Raise (RuntimeError (failed_message job_id (PStr status))), sent 1 c,
     [EvPoll job_id; EvLog (attempt_message attempt (PStr status))]).
Proof.
  intros Hnet (Hcode & info & Hjson & Hstatus) Hfailed.
  cbn [poll_loop]. rewrite bind_run. unfold http. rewrite Hnet.
  destruct (Z.eqb_spec (status_code resp) 404) as [E|NE]; [lia|].
  unfold raise_for_status, resp_json. rewrite Hjson.
  destruct (Z.leb_spec 400 (status_code resp)); [lia|].
  cbn [andb]. unfold py_get. run. rewrite Hstatus.
  destruct Hfailed as [-> | ->]; reflexivity.
Qed.

(** X2.  A response with a status from 400 to 599 other than 404 ends
    the loop with the HTTP error of that status: one request, no sleep. *)
Lemma poll_loop_http_error attempt rest c resp :
  network env (requests c) = Some resp ->
  400 <= status_code resp < 600 ->
  status_code resp <> 404 ->
  poll_loop env job_id poll_interval (attempt :: rest) c
  = (Raise (HTTPError (status_code resp)), sent 1 c, [EvPoll job_id]).
Proof.
  intros Hnet [Hlo Hhi] NE. cbn [poll_loop]. rewrite bind_run.
  unfold http. rewrite Hnet.
  destruct (Z.eqb_spec (status_code resp) 404) as [E|_]; [contradiction|].
  unfold raise_for_status.
  apply Z.leb_le in Hlo. apply Z.ltb_lt in Hhi. rewrite Hlo, Hhi.
  reflexivity.
Qed.

(** The loop goes through a run of attempts that each end in a retry. *)
Lemma poll_loop_retries attempts rest c :
  (forall i, (i < length attempts)%nat ->
     exists resp, network env (i + requests c) = Some resp
                  /\ (status_code resp = 404 \/ still_running resp = true)) ->
  exists trail,
    poll_loop env job_id poll_interval (attempts ++ rest) c
    = (let '(r, c', evs) :=
         poll_loop env job_id poll_interval rest (sent (length attempts) c) in
       (r, c', trail ++ evs))
    /\ count is_poll trail = length attempts
    /\ count is_sleep trail = length attempts.
Proof.
  revert c. induction attempts as [|attempt attempts IH]; intros c Hall.
  - exists []. destruct c as [t q o]. unfold sent. cbn [app length Nat.add ticks requests offered].
    destruct (poll_loop _ _ _ rest _) as [[r c'] evs]. auto.
  - destruct (Hall 0%nat) as (resp & Hnet & Hresp); [simpl; lia|].
    destruct (IH (sent 1 c)) as (trail & Hrun & Hpolls & Hsleeps).
    { intros i Hi. destruct (Hall (S i)) as (resp' & Hnet' & Hresp');
        [simpl; lia|].
      exists resp'. split; [|exact Hresp']. rewrite <- Hnet'.
      unfold sent. cbn [requests]. f_equal. lia. }
    exists (retry_events job_id poll_interval attempt resp ++ trail).
    destruct (retry_events_counts job_id poll_interval attempt resp) as [Hp Hs].
    rewrite !count_app, Hp, Hs, Hpolls, Hsleeps. split; [|auto].
    replace (sent (length attempts) (sent 1 c))
      with (sent (length (attempt :: attempts)) c) in Hrun
      by (unfold sent; cbn [ticks requests offered length]; f_equal; lia).
    rewrite <- app_comm_cons, (poll_loop_retry _ _ _ _ Hnet Hresp), Hrun.
    destruct (poll_loop _ _ _ rest _) as [[r c'] evs].
    rewrite app_assoc. reflexivity.
Qed.

End Polling.

Lemma raises_only_bind {A B} Q (m : M A) (k : A -> M B) :
  raises_only Q m -> (forall a, raises_only Q (k a)) ->
  raises_only Q (m ≫= k).
Proof.
  intros Hm Hk c. rewrite bind_run. specialize (Hm c).
  destruct (m c) as [[[a|e] c1] evs1]; simpl in *; [|exact Hm].
  specialize (Hk a c1). destruct (k a c1) as [[r c2] evs2]. exact Hk.
Qed.

Lemma raises_only_ret {A} Q (a : A) : raises_only Q (ret a).
Proof. intros c. exact I. Qed.

Lemma raises_only_raise {A} (Q : Exn -> Prop) e :
  Q e -> raises_only Q (raise e : M A).
Proof. intros H c. exact H. Qed.

Lemma raises_only_emit Q ev : raises_only Q (emit ev).
Proof. intros c. exact I. Qed.

Lemma raises_only_getitem (Q : Exn -> Prop) (d : dict) key :
  Q (KeyError key) -> raises_only Q (getitem d key).
Proof.
  intros H. unfold getitem.
  destruct (d !! key); [apply raises_only_ret | by apply raises_only_raise].
Qed.

(** No run of the polling loop ends in the HTTP error of a 404. *)
Lemma poll_loop_hides_404 env job_id poll_interval attempts :
  raises_only (fun e => e <> HTTPError 404)
    (poll_loop env job_id poll_interval attempts).
Proof.
  induction attempts as [|attempt rest IH]; [apply raises_only_ret|].
  cbn [poll_loop]. apply raises_only_bind.
  { intros c. unfold http. by destruct (network env (requests c)). }
  intros resp. destruct (Z.eqb_spec (status_code resp) 404) as [E|NE].
  - apply raises_only_bind; [|intros _; exact IH].
    unfold sleep. destruct (_ <? _);
      [by apply raises_only_raise | apply raises_only_emit].
  - apply raises_only_bind.
    { unfold raise_for_status. destruct (_ && _);
        [apply raises_only_raise; congruence | apply raises_only_ret]. }
    intros _. apply raises_only_bind.
    { unfold resp_json. destruct (json resp);
        [apply raises_only_ret | by apply raises_only_raise]. }
    intros info. apply raises_only_bind.
    { destruct info; simpl; try (by apply raises_only_raise).
      apply raises_only_ret. }
    intros status. apply raises_only_bind; [apply raises_only_emit|].
    intros _. destruct (eq_str status "complete"); [apply raises_only_ret|].
    apply raises_only_bind.
    { unfold in_failed_or_error. destruct (hashable status);
        [apply raises_only_ret | by apply raises_only_raise]. }
    intros [|]; [by apply raises_only_raise|].
    apply raises_only_bind; [|intros _; exact IH].
    unfold sleep. destruct (_ <? _);
      [by apply raises_only_raise | apply raises_only_emit].
Qed.

Lemma poll_job_hides_404 env (conf : dict) job_id poll_interval max_tries :
  raises_only (fun e => e <> HTTPError 404)
    (_poll_job env conf job_id poll_interval max_tries).
Proof.
  unfold _poll_job.
  do 3 (apply raises_only_bind; [by apply raises_only_getitem | intros _]).
  apply raises_only_bind; [apply poll_loop_hides_404|].
  intros [info|]; [apply raises_only_ret | by apply raises_only_raise].
Qed.

(** [_poll_job] is its loop, and a timeout when the loop runs out. *)
Lemma poll_job_run env (conf : dict) job_id poll_interval max_tries c :
  poll_credentials conf ->
  _poll_job env conf job_id poll_interval max_tries c
  = let '(r, c', evs) :=
      poll_loop env job_id poll_interval (seq 0 (Z.to_nat max_tries)) c in
    (match r with
     | Ok (Some info) => Ok info
     | Ok None =>
         Raise (TimeoutError (timeout_message job_id poll_interval max_tries))
     | Raise e => Raise e
     end, c', evs).
Proof.
  intros ([? Ha] & [? Hb] & [? Hc]). unfold _poll_job, getitem.
  rewrite Ha, Hb, Hc. run.
  destruct (poll_loop _ _ _ _ c) as [[[[info|]|e] c'] evs];
    rewrite ?app_nil_r; reflexivity.
Qed.

Lemma poll_loop_http_error_at_500 :
  poll_loop env_server_error (PStr "job-1") 10 (seq 0 60) c0
  = (Raise (HTTPError 500), sent 1 c0, [EvPoll (PStr "job-1")]).
Proof.
  apply (poll_loop_http_error env_server_error (PStr "job-1") 10 0
           (seq 1 59) c0 (mkResponse 500 None None));
    [reflexivity | simpl; lia | discriminate].
Defined.

Lemma demo_credentials : poll_credentials demo_conf.
Proof. repeat split; eexists; reflexivity. Qed.

(** ** Polling: the claims *)

(** C3.  With [max_tries >= 1] and a non-negative interval, if each of
    the first [max_tries] poll responses is a 2xx response whose status is
    neither "complete" nor "failed" nor "error", [_poll_job] makes exactly
    [max_tries] poll requests, sleeping after each, and then raises the
    timeout error; no further request is made. *)
Theorem C3_poll_times_out_after_max_tries
    env (conf : dict) job_id poll_interval max_tries c :
  1 <= max_tries ->
  0 <= poll_interval ->
  poll_credentials conf ->
  (forall i, (i < Z.to_nat max_tries)%nat ->
     exists resp, network env (i + requests c) = Some resp
                  /\ still_running resp = true) ->
  exists evs,
    _poll_job env conf job_id poll_interval max_tries c
    = (Raise (TimeoutError (timeout_message job_id poll_interval max_tries)),
       sent (Z.to_nat max_tries) c, evs)
    /\ count is_poll evs = Z.to_nat max_tries
    /\ count is_sleep evs = Z.to_nat max_tries.
Proof.
  intros _ Hp Hcred Hall.
  destruct (poll_loop_retries env job_id poll_interval Hp
              (seq 0 (Z.to_nat max_tries)) [] c) as (trail & Hrun & Hpolls & Hsleeps).
  { rewrite length_seq. intros i Hi. destruct (Hall i Hi) as (resp & ? & ?).
    exists resp. auto. }
  rewrite length_seq in *. rewrite app_nil_r in Hrun.
  exists trail. rewrite (poll_job_run _ _ _ _ _ _ Hcred), Hrun.
  cbn [poll_loop]. run. rewrite app_nil_r. auto.
Qed.

Lemma C3_three_pending_polls :
  exists evs,
    _poll_job env_pending demo_conf (PStr "job-1") 10 3 c0
    = (Raise (TimeoutError (timeout_message (PStr "job-1") 10 3)),
       sent 3 c0, evs)
    /\ count is_poll evs = 3%nat
    /\ count is_sleep evs = 3%nat.
Proof.
  apply (C3_poll_times_out_after_max_tries env_pending demo_conf
           (PStr "job-1") 10 3 c0); [lia | lia | exact demo_credentials |].
  intros i _. exists pending_response. split; reflexivity.
Defined.

(** C4.  A 404 poll response is transient: the loop sleeps
    [poll_interval] and makes the next attempt, and no run of [_poll_job]
    ends in the HTTP error of a 404.  With at least four attempts allowed
    and the replies 404, 404, "pending", "complete", [_poll_job] returns
    the job information after exactly four poll requests, with a sleep of
    [poll_interval] between consecutive requests. *)
Theorem C4_not_found_is_retried env (conf : dict) job_id poll_interval :
  0 <= poll_interval ->
  poll_credentials conf ->
  (forall attempt rest c resp,
      network env (requests c) = Some resp ->
      status_code resp = 404 ->
      poll_loop env job_id poll_interval (attempt :: rest) c
      = let '(r, c', evs) :=
          poll_loop env job_id poll_interval rest (sent 1 c) in
        (r, c', EvPoll job_id :: EvSleep poll_interval :: evs))
  /\ (forall max_tries c,
        (_poll_job env conf job_id poll_interval max_tries c).1.1
        <> Raise (HTTPError 404))
  /\ (forall max_tries c r1 r2 r3 r4 info,
        4 <= max_tries ->
        network env (requests c) = Some r1 -> status_code r1 = 404 ->
        network env (1 + requests c)%nat = Some r2 -> status_code r2 = 404 ->
        network env (2 + requests c)%nat = Some r3 -> reports r3 "pending" ->
        network env (3 + requests c)%nat = Some r4 ->
        200 <= status_code r4 < 300 -> json r4 = Some (PDict info) ->
        info !! "status" = Some (PStr "complete") ->
        _poll_job env conf job_id poll_interval max_tries c
        = (Ok (PDict info), sent 4 c,
           [EvPoll job_id; EvSleep poll_interval;
            EvPoll job_id; EvSleep poll_interval;
            EvPoll job_id; EvLog (attempt_message 2 (PStr "pending"));
            EvSleep poll_interval;
            EvPoll job_id; EvLog (attempt_message 3 (PStr "complete"))])).
Proof.
  intros Hp Hcred. split; [|split].
  - intros attempt rest c resp Hnet H404.
    rewrite (poll_loop_retry env job_id poll_interval Hp _ _ _ _ Hnet
               (or_introl H404)).
    unfold retry_events. rewrite H404. reflexivity.
  - intros max_tries c.
    pose proof (poll_job_hides_404 env conf job_id poll_interval max_tries c) as H.
    destruct (_poll_job _ _ _ _ _ c) as [[[info|e] c'] evs]; simpl in *;
      congruence.
  - intros max_tries c r1 r2 r3 r4 info Hmax Hn1 H1 Hn2 H2 Hn3 H3 Hn4 Hcode4
      Hjson4 Hstatus4.
    rewrite (poll_job_run _ _ _ _ _ _ Hcred).
    destruct (Z.to_nat max_tries) as [|[|[|[|n]]]] eqn:En; try lia.
    cbn [seq].
    rewrite (poll_loop_retry env job_id poll_interval Hp _ _ _ _ Hn1
               (or_introl H1)).
    rewrite (poll_loop_retry env job_id poll_interval Hp _ _ (sent 1 c) _ Hn2
               (or_introl H2)).
    assert (still_running r3 = true) as Hrun3.
    { destruct H3 as ([Hlo Hhi] & info3 & Hjson3 & Hstatus3).
      unfold still_running, status_of. rewrite Hjson3, Hstatus3.
      apply Z.leb_le in Hlo. apply Z.ltb_lt in Hhi. rewrite Hlo, Hhi.
      reflexivity. }
    rewrite (poll_loop_retry env job_id poll_interval Hp _ _
               (sent 1 (sent 1 c)) _ Hn3 (or_intror Hrun3)).
    rewrite (poll_loop_complete env job_id poll_interval _ _
               (sent 1 (sent 1 (sent 1 c))) r4 info Hn4 Hcode4 Hjson4 Hstatus4).
    unfold retry_events, status_of. rewrite H1, H2.
    destruct H3 as ([Hlo Hhi] & info3 & Hjson3 & Hstatus3).
    rewrite Hjson3, Hstatus3.
    destruct (Z.eqb_spec (status_code r3) 404); [lia|]. reflexivity.
Qed.

Lemma C4_slow_start_completes :
  _poll_job env_slow_start demo_conf (PStr "job-1") 10 60 c0
  = (Ok (PDict complete_info), sent 4 c0,
     [EvPoll (PStr "job-1"); EvSleep 10;
      EvPoll (PStr "job-1"); EvSleep 10;
      EvPoll (PStr "job-1"); EvLog (attempt_message 2 (PStr "pending"));
      EvSleep 10;
      EvPoll (PStr "job-1"); EvLog (attempt_message 3 (PStr "complete"))]).
Proof.
  refine (proj2 (proj2 (C4_not_found_is_retried env_slow_start demo_conf
                          (PStr "job-1") 10 _ demo_credentials))
            60 c0 not_found not_found pending_response
            (json_response complete_info) complete_info
            _ _ _ _ _ _ _ _ _ _ _);
    try reflexivity; try lia.
  - split; [simpl; lia|]. eexists. split; reflexivity.
  - simpl. lia.
Defined.

(** C5.  When a poll response (2xx) reports the status "failed" or
    "error", after any number [k] of attempts that ended in a retry,
    [_poll_job] raises at once the error whose message holds the job id
    and the reported status: that poll is the last request, and no sleep
    follows it. *)
Theorem C5_failed_job_raises_at_once
    env (conf : dict) job_id poll_interval max_tries c k resp status :
  0 <= poll_interval ->
  poll_credentials conf ->
  (k < Z.to_nat max_tries)%nat ->
  (forall i, (i < k)%nat ->
     exists resp', network env (i + requests c) = Some resp'
                   /\ (status_code resp' = 404 \/ still_running resp' = true)) ->
  network env (k + requests c) = Some resp ->
  reports resp status ->
  status = "failed" \/ status = "error" ->
  exists trail,
    _poll_job env conf job_id poll_interval max_tries c
    = (Raise (RuntimeError
                [Lit "Export job "; Val job_id; Lit " failed with status '";
                 Val (PStr status); Lit "'"]),
       sent (S k) c,
       trail ++ [EvPoll job_id; EvLog (attempt_message k (PStr status))])
    /\ count is_poll trail = k
    /\ count is_sleep trail = k.
Proof.
  intros Hp Hcred Hk Hbefore Hnet Hreports Hfailed.
  assert (seq 0 (Z.to_nat max_tries)
          = seq 0 k ++ k :: seq (S k) (Z.to_nat max_tries - S k)) as Hseq.
  { replace (Z.to_nat max_tries) with (k + S (Z.to_nat max_tries - S k))%nat
      at 1 by lia.
    rewrite seq_app. reflexivity. }
  destruct (poll_loop_retries env job_id poll_interval Hp (seq 0 k)
              (k :: seq (S k) (Z.to_nat max_tries - S k)) c)
    as (trail & Hrun & Hpolls & Hsleeps).
  { rewrite length_seq. exact Hbefore. }
  rewrite length_seq in *.
  exists trail. rewrite (poll_job_run _ _ _ _ _ _ Hcred), Hseq, Hrun.
  rewrite (poll_loop_failed env job_id poll_interval k _ (sent k c) resp status);
    [| exact Hnet | exact Hreports | exact Hfailed].
  split; [|auto]. unfold sent. cbn [ticks requests offered]. reflexivity.
Qed.

Lemma C5_failed_after_one_pending_poll :
  exists trail,
    _poll_job env_failing demo_conf (PStr "job-1") 10 60 c0
    = (Raise (RuntimeError
                [Lit "Export job "; Val (PStr "job-1");
                 Lit " failed with status '"; Val (PStr "failed"); Lit "'"]),
       sent 2 c0,
       trail ++ [EvPoll (PStr "job-1");
                 EvLog (attempt_message 1 (PStr "failed"))])
    /\ count is_poll trail = 1%nat
    /\ count is_sleep trail = 1%nat.
Proof.
  apply (C5_failed_job_raises_at_once env_failing demo_conf (PStr "job-1")
           10 60 c0 1 failed_response "failed");
    [lia | exact demo_credentials | simpl; lia | | reflexivity | | auto].
  - intros i Hi. exists pending_response.
    destruct i as [|i]; [split; [reflexivity | right; reflexivity] | lia].
  - split; [simpl; lia|]. eexists. split; reflexivity.
Defined.

(** ** The window: the claims *)

Lemma sync_window_events env (conf : dict) start_ts end_ts :
  emits (window_event conf start_ts end_ts)
    (sync_window env conf start_ts end_ts).
Proof.
  unfold sync_window.
  destruct (start_ts >=? end_ts); [by apply emits_emit|].
  apply emits_bind; [by apply enqueue_emits | intros job_id].
  apply emits_bind; [by apply poll_job_emits | intros job_info].
  apply emits_bind; [apply emits_subscript | intros download_url].
  apply emits_bind; [by apply download_emits | intros csv_text].
  apply emits_bind; [by apply upsert_rows_emits | intros row_count].
  apply emits_bind; [repeat emits_step | intros _].
  apply emits_bind; [by apply emits_emit | intros _].
  by apply emits_emit.
Qed.

Lemma update_events env (conf state : dict) c start_ts end_ts c1 r c' evs :
  compute_window env conf state c = (Ok (start_ts, end_ts), c1, []) ->
  update env conf state c = (r, c', evs) ->
  Forall (window_event conf start_ts end_ts) evs.
Proof.
  intros Hwin. unfold update. rewrite (bind_ok _ _ _ _ _ _ Hwin).
  cbn [fst snd]. intros H.
  pose proof (sync_window_events env conf start_ts end_ts c1) as Hev.
  destruct (sync_window env conf start_ts end_ts c1) as [[r2 c2] evs2].
  cbn [app] in H. injection H as <- <- <-. exact Hev.
Qed.

Lemma run_eta {A} (x : Res A * Counters * list Event) : x = (x.1.1, x.1.2, x.2).
Proof. destruct x as [[r c] evs]. reflexivity. Qed.

(** Everything C1 says of a run resumed from the checkpoint [t]. *)
Lemma update_resumed env (conf state : dict) c t W r c' evs :
  state !! "last_end_time" = Some (PInt t) ->
  _as_int (dict_get conf "window_seconds") (Some 3600) = Ok (Some W) ->
  update env conf state c = (r, c', evs) ->
  let start_ts := t + 1 in
  let end_ts := Z.min (start_ts + W) (clock env (ticks c)) in
  compute_window env conf state c = (Ok (start_ts, end_ts), tick c, [])
  /\ (forall payload, EvEnqueue payload ∈ evs ->
        payload !! "start_time" = Some (PInt start_ts)
        /\ payload !! "end_time" = Some (PInt end_ts))
  /\ (forall new_state, EvCheckpoint new_state ∈ evs ->
        new_state = {["last_end_time" := PInt end_ts]})
  /\ (start_ts < end_ts -> r = Ok tt ->
      exists pre,
        evs = pre ++ [EvCheckpoint {["last_end_time" := PInt end_ts]}]).
Proof.
  intros Hstate HW Hrun start_ts end_ts.
  pose proof (compute_window_resume env conf state c t W Hstate HW) as Hwin.
  fold start_ts end_ts in Hwin.
  pose proof (update_events _ _ _ _ _ _ _ _ _ _ Hwin Hrun) as Hev.
  rewrite Forall_forall in Hev.
  split; [exact Hwin|]. split; [|split].
  - intros payload Hin. destruct (Hev _ Hin) as (? & ? & _). auto.
  - intros new_state Hin. exact (Hev _ Hin).
  - intros Hlt ->. apply update_returns in Hrun as [Hskip | Hdone].
    + destruct Hskip as (s & e & Hwin' & Hle & _). rewrite Hwin in Hwin'.
      injection Hwin' as <- <- _. lia.
    + destruct Hdone as (s & e & c1 & pre & job_id & download_url & resp & text
                         & rows & Hwin' & _ & _ & _ & _ & _ & ->).
      rewrite Hwin in Hwin'. injection Hwin' as <- <- _.
      exists (pre ++ [EvDownload job_id download_url]
                  ++ (upsert_event conf <$> rows)
                  ++ [EvLog (upserted_message (Z.of_nat (length rows))
                               start_ts end_ts)]).
      rewrite <- !app_assoc. reflexivity.
Qed.

(** C1.  With a prior state holding [last_end_time = t] and a window
    span [W], [update] computes the window [start = t + 1],
    [end = min (start + W) now]: the enqueue request is for it, any
    checkpoint holds its end, and a run that returns with a non-empty
    window ends with the checkpoint [{last_end_time: end}].  With the
    state [{last_end_time: 1000}], [window_seconds = 3600] and
    [now = 5000] the window is [(1001, 4601)] and a run that returns ends
    with the checkpoint [{last_end_time: 4601}]. *)
Theorem C1_window_resumes_after_checkpoint :
  (forall env (conf state : dict) c t W r c' evs,
      state !! "last_end_time" = Some (PInt t) ->
      _as_int (dict_get conf "window_seconds") (Some 3600) = Ok (Some W) ->
      update env conf state c = (r, c', evs) ->
      let start_ts := t + 1 in
      let end_ts := Z.min (start_ts + W) (clock env (ticks c)) in
      compute_window env conf state c = (Ok (start_ts, end_ts), tick c, [])
      /\ (forall payload, EvEnqueue payload ∈ evs ->
            payload !! "start_time" = Some (PInt start_ts)
            /\ payload !! "end_time" = Some (PInt end_ts))
      /\ (forall new_state, EvCheckpoint new_state ∈ evs ->
            new_state = {["last_end_time" := PInt end_ts]})
      /\ (start_ts < end_ts -> r = Ok tt ->
          exists pre,
            evs = pre ++ [EvCheckpoint {["last_end_time" := PInt end_ts]}]))
  /\ (forall env (conf : dict) c r c' evs,
        conf !! "window_seconds" = Some (PInt 3600) ->
        clock env (ticks c) = 5000 ->
        update env conf {["last_end_time" := PInt 1000]} c = (r, c', evs) ->
        compute_window env conf {["last_end_time" := PInt 1000]} c
        = (Ok (1001, 4601), tick c, [])
        /\ (forall payload, EvEnqueue payload ∈ evs ->
              payload !! "start_time" = Some (PInt 1001)
              /\ payload !! "end_time" = Some (PInt 4601))
        /\ (r = Ok tt ->
            exists pre,
              evs = pre ++ [EvCheckpoint {["last_end_time" := PInt 4601]}])).
Proof.
  split; [exact update_resumed|].
  intros env conf c r c' evs Hconf Hnow Hrun.
  destruct (update_resumed env conf {["last_end_time" := PInt 1000]} c
              1000 3600 r c' evs) as (Hwin & Henq & _ & Hck).
  - apply lookup_singleton_eq.
  - unfold dict_get. rewrite Hconf. reflexivity.
  - exact Hrun.
  - rewrite Hnow in *. change (Z.min (1000 + 1 + 3600) 5000) with 4601 in *.
    change (1000 + 1) with 1001 in *.
    split; [exact Hwin|]. split; [exact Henq|]. intros Hr. apply Hck; [lia|exact Hr].
Qed.

Lemma C1_scenario_run :
  compute_window env_export demo_conf {["last_end_time" := PInt 1000]} c0
  = (Ok (1001, 4601), tick c0, [])
  /\ exists pre,
      (update env_export demo_conf {["last_end_time" := PInt 1000]} c0).2
      = pre ++ [EvCheckpoint {["last_end_time" := PInt 4601]}].
Proof.
  destruct (proj2 C1_window_resumes_after_checkpoint env_export demo_conf c0
              _ _ _ eq_refl eq_refl (run_eta _)) as (Hwin & _ & Hck).
  split; [exact Hwin|]. apply Hck. vm_compute. reflexivity.
Defined.

(** C7.  When the computed window has [start >= end], [update] returns
    having only logged that there is nothing to sync: no upsert, no
    checkpoint, no enqueue, poll or download, and no HTTP request read
    from the network. *)
Theorem C7_empty_window_is_a_no_op
    env (conf state : dict) c start_ts end_ts c1 evs0 :
  compute_window env conf state c = (Ok (start_ts, end_ts), c1, evs0) ->
  start_ts >= end_ts ->
  update env conf state c
  = (Ok tt, c1, [EvLog [Lit "No new time window to sync; skipping"]])
  /\ requests c1 = requests c
  /\ offered c1 = offered c.
Proof.
  intros Hwin Hge.
  destruct (compute_window_silent _ _ _ _ _ _ _ Hwin) as (-> & Hreq & Hoff).
  split; [|auto]. unfold update. rewrite (bind_ok _ _ _ _ _ _ Hwin).
  cbn [fst snd]. unfold sync_window.
  destruct (Z.geb_spec start_ts end_ts); [reflexivity | lia].
Qed.

Lemma C7_checkpoint_at_now :
  update env_export demo_conf {["last_end_time" := PInt 5000]} c0
  = (Ok tt, tick c0, [EvLog [Lit "No new time window to sync; skipping"]])
  /\ requests (tick c0) = requests c0
  /\ offered (tick c0) = offered c0.
Proof.
  apply (C7_empty_window_is_a_no_op env_export demo_conf
           {["last_end_time" := PInt 5000]} c0 5001 5000 (tick c0) []);
    [vm_compute; reflexivity | lia].
Defined.

Lemma uncoercible_as_int (conf : dict) key default :
  uncoercible conf key -> _as_int (dict_get conf key) default = Ok default.
Proof.
  intros [H|H]; apply as_int_fallback; [left; by apply absent_uncoercible | exact H].
Qed.

(** C10.  A [window_seconds] that is absent or that [int] cannot coerce
    raises nothing: the span is 3600 seconds.  The same fallback on
    [initial_start_time] gives [None], and with no prior state the start
    is then the clock reading less one day. *)
Theorem C10_uncoercible_settings_fall_back env (conf : dict) c :
  (uncoercible conf "window_seconds" ->
     _as_int (dict_get conf "window_seconds") (Some 3600) = Ok (Some 3600)
     /\ forall (state : dict) t,
          state !! "last_end_time" = Some (PInt t) ->
          compute_window env conf state c
          = (Ok (t + 1, Z.min (t + 1 + 3600) (clock env (ticks c))),
             tick c, []))
  /\ (uncoercible conf "initial_start_time" ->
        _as_int (dict_get conf "initial_start_time") None = Ok None
        /\ exists W,
            _as_int (dict_get conf "window_seconds") (Some 3600) = Ok (Some W)
            /\ compute_window env conf ∅ c
               = (Ok (clock env (ticks c) - 86400,
                      Z.min (clock env (ticks c) - 86400 + W)
                            (clock env (S (ticks c)))),
                  tick (tick c), [])).
Proof.
  split.
  - intros H. pose proof (uncoercible_as_int conf _ (Some 3600) H) as HW.
    split; [exact HW|]. intros state t Hstate.
    exact (compute_window_resume env conf state c t 3600 Hstate HW).
  - intros H. pose proof (uncoercible_as_int conf _ None H) as Hs.
    split; [exact Hs|].
    destruct (as_int_window_seconds (dict_get conf "window_seconds")) as [W HW].
    exists W. split; [exact HW|].
    rewrite (compute_window_initial env conf c W None HW Hs). reflexivity.
Qed.

Lemma C10_bad_span_and_no_start :
  compute_window env_export conf_bad_span {["last_end_time" := PInt 1000]} c0
  = (Ok (1001, 4601), tick c0, [])
  /\ compute_window env_export conf_bad_span ∅ c0
     = (Ok (-81400, -77800), tick (tick c0), []).
Proof.
  destruct (C10_uncoercible_settings_fall_back env_export conf_bad_span c0)
    as [Hspan Hstart].
  split.
  - destruct Hspan as [_ Hwin]; [right; right; reflexivity|].
    apply (Hwin {["last_end_time" := PInt 1000]} 1000). reflexivity.
  - destruct Hstart as (_ & W & HW & Hwin); [left; reflexivity|].
    rewrite Hwin. vm_compute in HW. injection HW as <-. reflexivity.
Defined.

(** ** The initial start (C6) *)

(** X1.  With no prior state, an [initial_start_time] that coerces to a
    non-zero integer is the start of the window, and the end is the
    start plus the span, capped at the clock reading. *)
Lemma initial_start_used env (conf : dict) c n W :
  _as_int (dict_get conf "window_seconds") (Some 3600) = Ok (Some W) ->
  py_int (dict_get conf "initial_start_time") = Ok n ->
  n <> 0 ->
  compute_window env conf ∅ c
  = (Ok (n, Z.min (n + W) (clock env (ticks c))), tick c, []).
Proof.
  intros HW Hn Hnz.
  rewrite (compute_window_initial env conf c W (Some n) HW)
    by (unfold _as_int; rewrite Hn; reflexivity).
  unfold not_int. destruct (Z.eqb_spec n 0); [contradiction | reflexivity].
Qed.

Lemma initial_start_used_at_4000 :
  compute_window env_export conf_start_4000 ∅ c0
  = (Ok (4000, 5000), tick c0, []).
Proof.
  apply (initial_start_used env_export conf_start_4000 c0 4000 3600);
    [reflexivity | reflexivity | lia].
Defined.

(** C6, on the code: with no prior state and [initial_start_time = 0]
    configured, the start is not 0 but the clock reading less one day
    ([not start_ts] holds of 0 as it does of [None]). *)
Theorem C6_zero_start_is_replaced_by_default :
  forall env c,
    compute_window env conf_start_zero ∅ c
    = (Ok (clock env (ticks c) - 86400,
           Z.min (clock env (ticks c) - 86400 + 3600)
                 (clock env (S (ticks c)))),
       tick (tick c), []).
Proof.
  intros env c.
  rewrite (compute_window_initial env conf_start_zero c 3600 (Some 0));
    reflexivity.
Qed.

(** ** The checkpoint (C2) *)

(** A run that synced its window returns, and its events are those
    before the rows, the upsert of every row, a log line, and the
    checkpoint at the end of the window. *)
Lemma update_of_synced_window
    env (conf state : dict) c start_ts end_ts rows pre c_end :
  window_synced env conf state c start_ts end_ts rows pre c_end ->
  update env conf state c
  = (Ok tt, c_end,
     pre ++ (upsert_event conf <$> rows)
     ++ [EvLog (upserted_message (Z.of_nat (length rows)) start_ts end_ts);
         EvCheckpoint {["last_end_time" := PInt end_ts]}]).
Proof.
  intros (c1 & job_id & c2 & evs2 & job_info & c3 & evs3 & download_url
          & csv_text & c4 & evs4 & row_count & evs5 & Hwin & Hlt & Henq
          & Hpoll & Hsub & Hdl & HDR & Hrows & ->).
  destruct (upsert_rows_returns _ _ _ _ _ _ _ _ Hrows) as (Hn & _ & Hev).
  subst row_count evs5.
  unfold update. rewrite (bind_ok _ _ _ _ _ _ Hwin). cbn [fst snd app].
  unfold sync_window. destruct (Z.geb_spec start_ts end_ts); [lia|].
  rewrite (bind_ok _ _ _ _ _ _ Henq). cbv beta.
  rewrite (bind_ok _ _ _ _ _ _ Hpoll). cbv beta.
  rewrite (bind_ok _ _ _ _ _ _ Hsub). cbv beta.
  rewrite (bind_ok _ _ _ _ _ _ Hdl). cbv beta.
  rewrite HDR. cbn [fst snd].
  rewrite (bind_ok _ _ _ _ _ _ Hrows). run.
  rewrite Z.add_0_l. unfold upserted_message.
  rewrite <- !app_assoc. reflexivity.
Qed.

(** A run of [update] that returns either found no window, or synced
    its window. *)
Lemma update_returns_synced env (conf state : dict) c c' evs :
  update env conf state c = (Ok tt, c', evs) ->
  evs = [EvLog skip_message]
  \/ exists start_ts end_ts rows pre,
       window_synced env conf state c start_ts end_ts rows pre c'.
Proof.
  unfold update. intros H. returned H as [start_ts end_ts] c1 evs1 Hwin.
  cbn [fst snd] in H. unfold sync_window in H.
  destruct (compute_window_silent _ _ _ _ _ _ _ Hwin) as (-> & _ & _).
  destruct (start_ts >=? end_ts) eqn:Hge.
  - left. revert H. run. unfold skip_message. congruence.
  - right. assert (start_ts < end_ts) as Hlt.
    { destruct (Z.geb_spec start_ts end_ts); [discriminate | lia]. }
    returned H as job_id c2 evs2 Henq.
    returned H as job_info c3 evs3 Hpoll.
    returned H as download_url c4 evs4 Hsub.
    returned H as csv_text c5 evs5 Hdl.
    returned H as row_count c6 evs6 Hrows.
    destruct (subscript_silent _ _ _ _ _ _ Hsub) as [-> ->].
    destruct (DictReader csv_text) as [rows err] eqn:HDR.
    cbn [fst snd] in H, Hrows.
    destruct err as [e|]; [revert H; run; discriminate|].
    revert H. run. intros H.
    assert (c' = c6) as -> by congruence.
    exists start_ts, end_ts, rows, (evs2 ++ evs3 ++ evs5).
    exists c1, job_id, c2, evs2, job_info, c3, evs3, download_url, csv_text,
      c5, evs5, row_count, evs6.
    repeat (split; [done|]). reflexivity.
Qed.

(** C2.  A run of [update] emits a checkpoint exactly when it synced its
    window: submission, polling and the download returned, the payload
    decoded without error, and every decoded row was taken by the sink as
    an upsert.  Such a run returns, with the upsert of every row before
    the checkpoint, which is the last event and holds the window's end.
    A run that raises (in submission, polling, download, decoding or
    emission) has emitted no checkpoint. *)
Theorem C2_checkpoint_iff_every_row_upserted
    env (conf state : dict) c r c' evs :
  update env conf state c = (r, c', evs) ->
  ((exists new_state, EvCheckpoint new_state ∈ evs)
   <-> exists start_ts end_ts rows pre c_end,
         window_synced env conf state c start_ts end_ts rows pre c_end)
  /\ (forall start_ts end_ts rows pre c_end,
        window_synced env conf state c start_ts end_ts rows pre c_end ->
        r = Ok tt
        /\ Forall (fun ev => is_workflow ev = true) pre
        /\ evs = pre ++ (upsert_event conf <$> rows)
                 ++ [EvLog (upserted_message (Z.of_nat (length rows))
                              start_ts end_ts);
                     EvCheckpoint {["last_end_time" := PInt end_ts]}])
  /\ (forall e, r = Raise e -> forall new_state, EvCheckpoint new_state ∉ evs).
Proof.
  intros Hrun.
  assert (forall e, r = Raise e ->
                    forall new_state, EvCheckpoint new_state ∉ evs) as Hraise.
  { intros e -> new_state Hin.
    pose proof (update_raises_without_checkpoint env conf state c) as H.
    rewrite Hrun, Forall_forall in H. specialize (H _ Hin). discriminate. }
  assert (forall start_ts end_ts rows pre c_end,
            window_synced env conf state c start_ts end_ts rows pre c_end ->
            r = Ok tt
            /\ Forall (fun ev => is_workflow ev = true) pre
            /\ evs = pre ++ (upsert_event conf <$> rows)
                     ++ [EvLog (upserted_message (Z.of_nat (length rows))
                                  start_ts end_ts);
                         EvCheckpoint {["last_end_time" := PInt end_ts]}])
    as Hsynced.
  { intros start_ts end_ts rows pre c_end Hsync.
    pose proof (update_of_synced_window _ _ _ _ _ _ _ _ _ Hsync) as Hupd.
    rewrite Hrun in Hupd. injection Hupd as -> _ ->.
    split; [reflexivity|]. split; [|reflexivity].
    destruct Hsync as (c1 & job_id & c2 & evs2 & job_info & c3 & evs3
                       & download_url & csv_text & c4 & evs4 & row_count
                       & evs5 & _ & _ & Henq & Hpoll & _ & Hdl & _ & _ & ->).
    repeat (apply Forall_app; split).
    - eapply emits_of_run; [|exact Henq]. by apply enqueue_emits.
    - eapply emits_of_run; [|exact Hpoll]. by apply poll_job_emits.
    - eapply emits_of_run; [|exact Hdl]. by apply download_emits. }
  split; [|split; [exact Hsynced | exact Hraise]]. split.
  - intros [new_state Hin].
    destruct r as [[]|e]; [|by destruct (Hraise e eq_refl _ Hin)].
    apply update_returns_synced in Hrun as [-> | Hsync].
    + apply list_elem_of_singleton in Hin. discriminate.
    + destruct Hsync as (start_ts & end_ts & rows & pre & Hsync).
      by exists start_ts, end_ts, rows, pre, c'.
  - intros (start_ts & end_ts & rows & pre & c_end & Hsync).
    destruct (Hsynced _ _ _ _ _ Hsync) as (_ & _ & ->).
    exists {["last_end_time" := PInt end_ts]}.
    rewrite !elem_of_app. do 2 right.
    apply list_elem_of_further, list_elem_of_here.
Qed.

Lemma C2_export_run_delivers :
  exists new_state,
    EvCheckpoint new_state
    ∈ (update env_empty_export demo_conf state_1000 c0).2.
Proof.
  apply (proj2 (proj1 (C2_checkpoint_iff_every_row_upserted env_empty_export
                         demo_conf state_1000 c0 _ _ _ (run_eta _)))).
  exists 1001, 4601, [].
  eexists _, _, _, _, _, _, _, _, _, _, _, _, _, _, _.
  repeat (split; [vm_compute; reflexivity|]). reflexivity.
Defined.

(** ** Row decoding (C8) *)

Lemma clean_value_empty : clean_value (PStr "") = PNone.
Proof. reflexivity. Qed.


Lemma dict_of_pairs_lookup (pairs : list (option string * PyVal)) :
  forall (d : row) k v,
    foldl (fun d kv => <[kv.1 := kv.2]> d) d pairs !! k = Some v ->
    d !! k = Some v \/ (k, v) ∈ pairs.
Proof.
  induction pairs as [|[k0 v0] pairs IH]; intros d k v H; [by left|].
  cbn [foldl] in H. apply IH in H as [H|H].
  - cbn [fst snd] in H. destruct (decide (k0 = k)) as [->|Hne].
    + rewrite lookup_insert_eq in H. injection H as ->. right. left.
    + rewrite lookup_insert_ne in H by done. by left.
  - right. by right.
Qed.






(** ** Attribute ids (C9) *)

Lemma truthy_str (s : string) : truthy (PStr s) = true <-> s <> "".
Proof.
  simpl. destruct (String.eqb_spec s ""); simpl; split; congruence.
Qed.

Lemma strip_filter (segs : list string) :
  strip <$> filter (fun seg => truthy (PStr (strip seg)) = true) segs
  = filter (fun seg => seg <> "") (strip <$> segs).
Proof.
  induction segs as [|seg segs IH]; [reflexivity|].
  rewrite fmap_cons, !filter_cons.
  destruct (decide (truthy (PStr (strip seg)) = true)) as [H|H];
    destruct (decide (strip seg <> "")) as [H'|H'].
  - rewrite fmap_cons, IH. reflexivity.
  - apply truthy_str in H. contradiction.
  - apply truthy_str in H'. contradiction.
  - exact IH.
Qed.

Lemma update_enqueue_attribute_ids env (conf state : dict) c r c' evs payload :
  update env conf state c = (r, c', evs) ->
  EvEnqueue payload ∈ evs ->
  payload !! "attribute_ids"
  = Some (attribute_ids_of (dict_get conf "attribute_ids")).
Proof.
  intros Hrun Hin.
  destruct (compute_window env conf state c) as [[[[s e]|ex] c1] evs1] eqn:Hwin;
    destruct (compute_window_silent _ _ _ _ _ _ _ Hwin) as (-> & _ & _).
  - pose proof (update_events _ _ _ _ _ _ _ _ _ _ Hwin Hrun) as Hev.
    rewrite Forall_forall in Hev. destruct (Hev _ Hin) as (_ & _ & H). exact H.
  - unfold update in Hrun. rewrite (bind_raise _ _ _ _ _ _ Hwin) in Hrun.
    injection Hrun as _ _ <-. by apply elem_of_nil in Hin.
Qed.

(** C9, as the claim states it, fails on a string with an empty
    segment: ["a,,b"] has the stripped segments [a], the empty string and
    [b], and the code yields [a] and [b]. *)
Lemma C9_empty_segment_is_dropped :
  attribute_ids_of (PStr "a,,b") = PList [PStr "a"; PStr "b"]
  /\ PList (PStr <$> stripped_segments "a,,b")
     = PList [PStr "a"; PStr ""; PStr "b"]
  /\ attribute_ids_of (PStr "a,,b")
     <> PList (PStr <$> stripped_segments "a,,b").
Proof.
  split; [reflexivity|]. split; [reflexivity|].
  vm_compute. discriminate.
Qed.

(** C9, amended.  An [attribute_ids] string is parsed into its
    comma-separated segments, each stripped of surrounding whitespace,
    less the segments that are empty after stripping; ["a, b,c"] gives
    [a], [b], [c].  A list is passed on as it is.  The enqueue request
    carries the result. *)
Theorem C9_attribute_ids_parsed :
  (forall s,
      attribute_ids_of (PStr s)
      = PList (PStr <$> filter (fun seg => seg <> "") (stripped_segments s)))
  /\ attribute_ids_of (PStr "a, b,c") = PList [PStr "a"; PStr "b"; PStr "c"]
  /\ (forall l, attribute_ids_of (PList l) = PList l)
  /\ (forall env (conf state : dict) c r c' evs payload,
        update env conf state c = (r, c', evs) ->
        EvEnqueue payload ∈ evs ->
        payload !! "attribute_ids"
        = Some (attribute_ids_of (dict_get conf "attribute_ids"))).
Proof.
  split; [|split; [|split]].
  - intros s. unfold attribute_ids_of, stripped_segments.
    rewrite strip_filter. reflexivity.
  - reflexivity.
  - intros [|v l]; reflexivity.
  - exact update_enqueue_attribute_ids.
Qed.

Lemma C9_export_run_sends_parsed_ids :
  EvEnqueue demo_payload ∈ (update env_export demo_conf state_1000 c0).2
  /\ demo_payload !! "attribute_ids"
     = Some (PList [PStr "a"; PStr "b"; PStr "c"]).
Proof.
  assert (EvEnqueue demo_payload
          ∈ (update env_export demo_conf state_1000 c0).2) as Hin.
  { vm_compute. repeat constructor. }
  split; [exact Hin|].
  exact (proj2 (proj2 (proj2 C9_attribute_ids_parsed)) env_export demo_conf
           state_1000 c0 _ _ _ demo_payload (run_eta _) Hin).
Defined.

(** * Further properties *)

(** ** How much a run can do *)

Lemma weight_app w evs1 evs2 :
  weight w (evs1 ++ evs2) = (weight w evs1 + weight w evs2)%nat.
Proof. induction evs1 as [|ev evs1 IH]; simpl; lia. Qed.

Lemma weight_one_if f evs : weight (one_if f) evs = count f evs.
Proof.
  unfold count. induction evs as [|ev evs IH]; [reflexivity|].
  cbn [weight]. rewrite filter_cons, IH. unfold one_if.
  destruct (f ev); [rewrite decide_True by done | rewrite decide_False by done];
    reflexivity.
Qed.

Section Within.

Context (w : Event -> nat) (env : Env).

Lemma within_weaken {A} n n' b b' (m : M A) :
  (n <= n')%nat -> (b <= b')%nat -> within n w b m -> within n' w b' m.
Proof. intros Hn Hb H c. destruct (H c). split; lia. Qed.

Lemma within_ret {A} (a : A) : within 0 w 0 (ret a).
Proof. intros c. simpl. split; lia. Qed.

Lemma within_raise {A} (e : Exn) : within 0 w 0 (raise e : M A).
Proof. intros c. simpl. split; lia. Qed.

Lemma within_lift {A} (r : Res A) : within 0 w 0 (lift r).
Proof. intros c. simpl. split; lia. Qed.

Lemma within_emit ev : within 0 w (w ev) (emit ev).
Proof. intros c. simpl. split; lia. Qed.

Lemma within_http ev : within 1 w (w ev) (http env ev).
Proof.
  intros c. unfold http. destruct (network env (requests c)); simpl; split; lia.
Qed.

Lemma within_upsert table data :
  within 0 w (w (EvUpsert table data)) (upsert env table data).
Proof.
  intros c. unfold upsert. destruct (sink env (offered c)); simpl; split; lia.
Qed.

Lemma within_sleep secs : within 0 w (w (EvSleep secs)) (sleep secs).
Proof.
  unfold sleep. destruct (secs <? 0); [|apply within_emit].
  eapply within_weaken; [| |apply within_raise]; lia.
Qed.

Lemma within_bind {A B} n1 n2 b1 b2 (m : M A) (k : A -> M B) :
  within n1 w b1 m -> (forall a, within n2 w b2 (k a)) ->
  within (n1 + n2) w (b1 + b2) (m ≫= k).
Proof.
  intros Hm Hk c. rewrite bind_run. specialize (Hm c).
  destruct (m c) as [[[a|e] c1] evs1]; simpl in *; [|lia].
  specialize (Hk a c1). destruct (k a c1) as [[r c2] evs2]; simpl in *.
  rewrite weight_app. lia.
Qed.

(** A step that makes no request and produces nothing that weighs. *)
Lemma within_bind_free {A B} n b (m : M A) (k : A -> M B) :
  within 0 w 0 m -> (forall a, within n w b (k a)) -> within n w b (m ≫= k).
Proof. intros Hm Hk. exact (within_bind 0 n 0 b m k Hm Hk). Qed.

Lemma within_getitem (d : dict) key : within 0 w 0 (getitem d key).
Proof.
  unfold getitem. destruct (d !! key); [apply within_ret | apply within_raise].
Qed.

Lemma within_subscript v key : within 0 w 0 (subscript v key).
Proof. destruct v; simpl; try apply within_raise. apply within_getitem. Qed.

Lemma within_py_get v key dflt : within 0 w 0 (py_get v key dflt).
Proof. destruct v; simpl; try apply within_raise. apply within_ret. Qed.

Lemma within_raise_for_status resp : within 0 w 0 (raise_for_status resp).
Proof.
  unfold raise_for_status.
  destruct (_ && _); [apply within_raise | apply within_ret].
Qed.

Lemma within_resp_json resp : within 0 w 0 (resp_json resp).
Proof.
  unfold resp_json. destruct (json resp); [apply within_ret | apply within_raise].
Qed.

Lemma within_in_failed_or_error status :
  within 0 w 0 (in_failed_or_error status).
Proof.
  unfold in_failed_or_error.
  destruct (hashable status); [apply within_ret | apply within_raise].
Qed.

Hypothesis log_free : forall msg, w (EvLog msg) = 0%nat.

Lemma within_log msg : within 0 w 0 (log_info msg).
Proof.
  unfold log_info. eapply within_weaken; [| |apply within_emit];
    [lia | rewrite log_free; lia].
Qed.

(** The polling loop makes at most one request and one sleep for each
    attempt it is given. *)
Lemma poll_loop_within job_id poll_interval attempts :
  within (length attempts) w
    (length attempts * (w (EvPoll job_id) + w (EvSleep poll_interval)))
    (poll_loop env job_id poll_interval attempts).
Proof.
  induction attempts as [|attempt rest IH]; [apply within_ret|].
  cbn [poll_loop length].
  set (wp := w (EvPoll job_id)) in *. set (ws := w (EvSleep poll_interval)) in *.
  replace (S (length rest) * (wp + ws))%nat
    with (wp + (ws + length rest * (wp + ws)))%nat by lia.
  apply (within_bind 1 (length rest)); [apply within_http | intros resp].
  assert (within (length rest) w (ws + length rest * (wp + ws))
            (sleep poll_interval ≫= fun _ =>
               poll_loop env job_id poll_interval rest)) as Hgo.
  { apply (within_bind 0 (length rest)); [apply within_sleep | intros _; exact IH]. }
  destruct (status_code resp =? 404); [exact Hgo|].
  apply within_bind_free; [apply within_raise_for_status | intros _].
  apply within_bind_free; [apply within_resp_json | intros info].
  apply within_bind_free; [apply within_py_get | intros status].
  apply within_bind_free; [apply within_log | intros _].
  destruct (eq_str status "complete").
  { eapply within_weaken; [| |apply within_ret]; lia. }
  apply within_bind_free; [apply within_in_failed_or_error | intros [|]].
  - eapply within_weaken; [| |apply within_raise]; lia.
  - exact Hgo.
Qed.

End Within.

Section WithinHelpers.

Context (w : Event -> nat) (env : Env).
Hypothesis log_free : forall msg, w (EvLog msg) = 0%nat.

Lemma enqueue_within (conf : dict) start_ts end_ts attribute_ids we :
  (forall payload, (w (EvEnqueue payload) <= we)%nat) ->
  within 1 w we (_enqueue_job env conf start_ts end_ts attribute_ids).
Proof.
  intros Hwe. unfold _enqueue_job.
  apply within_bind_free; [apply within_getitem | intros _].
  apply within_bind_free; [apply within_getitem | intros dataset_id].
  apply within_bind_free; [by apply within_log | intros _].
  replace 1%nat with (1 + 0)%nat by lia. replace we with (we + 0)%nat by lia.
  apply within_bind.
  { eapply within_weaken; [| |apply within_http]; [lia | apply Hwe]. }
  intros resp.
  apply within_bind_free; [apply within_raise_for_status | intros _].
  apply within_bind_free; [apply within_resp_json | intros body].
  apply within_bind_free; [apply within_subscript | intros job_id].
  apply within_bind_free; [by apply within_log | intros _].
  apply within_ret.
Qed.

Lemma poll_job_within (conf : dict) job_id poll_interval max_tries :
  within (Z.to_nat max_tries) w
    (Z.to_nat max_tries * (w (EvPoll job_id) + w (EvSleep poll_interval)))
    (_poll_job env conf job_id poll_interval max_tries).
Proof.
  unfold _poll_job.
  do 3 (apply within_bind_free; [apply within_getitem | intros _]).
  pose proof (poll_loop_within w env log_free job_id poll_interval
                (seq 0 (Z.to_nat max_tries))) as Hloop.
  rewrite length_seq in Hloop.
  replace (Z.to_nat max_tries) with (Z.to_nat max_tries + 0)%nat at 1 by lia.
  rewrite <- (Nat.add_0_r (_ * _)).
  apply within_bind; [exact Hloop | intros [info|]];
    [apply within_ret | apply within_raise].
Qed.

Lemma download_within (conf : dict) job_id download_url wd :
  (w (EvDownload job_id download_url) <= wd)%nat ->
  within 1 w wd (_download_csv env conf job_id download_url).
Proof.
  intros Hwd. unfold _download_csv.
  apply within_bind_free; [apply within_getitem | intros _].
  apply within_bind_free; [apply within_getitem | intros _].
  apply within_bind_free; [by apply within_log | intros _].
  replace 1%nat with (1 + 0)%nat by lia. replace wd with (wd + 0)%nat by lia.
  apply within_bind.
  { eapply within_weaken; [| |apply within_http]; [lia | exact Hwd]. }
  intros resp.
  apply within_bind_free; [apply within_raise_for_status | intros _].
  destruct (content resp); [apply within_ret | apply within_raise].
Qed.

Lemma compute_window_within (conf state : dict) :
  within 0 w 0 (compute_window env conf state).
Proof.
  intros c.
  destruct (compute_window env conf state c) as [[r c'] evs] eqn:H.
  apply compute_window_silent in H as (-> & Hreq & _). simpl. split; lia.
Qed.

Hypothesis upsert_free : forall table data, w (EvUpsert table data) = 0%nat.

Lemma upsert_rows_within (conf : dict) rows row_count :
  within 0 w 0 (upsert_rows env conf rows row_count).
Proof.
  revert row_count. induction rows as [|r rest IH]; intros row_count;
    [apply within_ret|].
  cbn [upsert_rows].
  apply within_bind_free; [apply within_getitem | intros table].
  apply within_bind_free; [|intros _; apply IH].
  eapply within_weaken; [| |apply within_upsert]; [lia | rewrite upsert_free; lia].
Qed.

(** One enqueue, sixty polls with their sleeps, one download, one
    checkpoint. *)
Lemma sync_window_within (conf : dict) start_ts end_ts we wp ws wd wc :
  (forall payload, (w (EvEnqueue payload) <= we)%nat) ->
  (forall job_id, (w (EvPoll job_id) <= wp)%nat) ->
  (w (EvSleep 10) <= ws)%nat ->
  (forall job_id download_url, (w (EvDownload job_id download_url) <= wd)%nat) ->
  (forall new_state, (w (EvCheckpoint new_state) <= wc)%nat) ->
  within 62 w (we + 60 * (wp + ws) + wd + wc)
    (sync_window env conf start_ts end_ts).
Proof.
  intros Hwe Hwp Hws Hwd Hwc. unfold sync_window.
  destruct (start_ts >=? end_ts).
  { eapply within_weaken; [| |by apply within_log]; lia. }
  replace 62%nat with (1 + (60 + (1 + 0)))%nat by lia.
  replace (we + 60 * (wp + ws) + wd + wc)%nat
    with (we + (60 * (wp + ws) + (wd + wc)))%nat by lia.
  apply within_bind; [by apply enqueue_within | intros job_id].
  apply within_bind.
  { eapply within_weaken; [| |apply (poll_job_within conf job_id 10 60)];
      [simpl; lia|].
    change (Z.to_nat 60) with 60%nat. specialize (Hwp job_id). nia. }
  intros job_info.
  apply within_bind_free; [apply within_subscript | intros download_url].
  apply within_bind; [by apply download_within | intros csv_text].
  apply within_bind_free; [apply upsert_rows_within | intros row_count].
  apply within_bind_free.
  { destruct (DictReader csv_text).2; [apply within_raise | apply within_ret]. }
  intros _. apply within_bind_free; [by apply within_log | intros _].
  eapply within_weaken; [| |apply within_emit]; [lia | apply Hwc].
Qed.

Lemma update_within (conf state : dict) we wp ws wd wc :
  (forall payload, (w (EvEnqueue payload) <= we)%nat) ->
  (forall job_id, (w (EvPoll job_id) <= wp)%nat) ->
  (w (EvSleep 10) <= ws)%nat ->
  (forall job_id download_url, (w (EvDownload job_id download_url) <= wd)%nat) ->
  (forall new_state, (w (EvCheckpoint new_state) <= wc)%nat) ->
  within 62 w (we + 60 * (wp + ws) + wd + wc) (update env conf state).
Proof.
  intros Hwe Hwp Hws Hwd Hwc. unfold update.
  apply within_bind_free; [apply compute_window_within | intros win].
  by apply sync_window_within.
Qed.

End WithinHelpers.

(** Bounds a run of [update] with the weight [wgt], given the weight of
    an enqueue, a poll, a sleep, a download and a checkpoint. *)
Ltac bounded_by wgt we wp ws wd wc :=
  match goal with
  | |- context [update ?env ?conf ?state ?c] =>
      let H := fresh "H" in
      assert (within 62 wgt (we + 60 * (wp + ws) + wd + wc)
                (update env conf state)) as H
        by (apply update_within; intros;
            first [reflexivity | vm_compute; lia]);
      destruct (H c); simpl in *; lia
  end.

(** X3.  Whatever the environment answers, one run of [update] makes at
    most 62 HTTP requests: at most one enqueue, 60 polls and one download.
    It sleeps at most 60 times, 600 seconds in all, and emits at most one
    checkpoint. *)
Theorem update_is_bounded env (conf state : dict) c :
  (requests (update env conf state c).1.2 <= requests c + 62)%nat
  /\ (count is_enqueue (update env conf state c).2 <= 1)%nat
  /\ (count is_poll (update env conf state c).2 <= 60)%nat
  /\ (count is_download (update env conf state c).2 <= 1)%nat
  /\ (count is_sleep (update env conf state c).2 <= 60)%nat
  /\ (weight sleep_seconds (update env conf state c).2 <= 600)%nat
  /\ (count is_checkpoint (update env conf state c).2 <= 1)%nat.
Proof.
  repeat split; rewrite <- ?weight_one_if.
  - bounded_by (one_if is_enqueue) 1%nat 0%nat 0%nat 0%nat 0%nat.
  - bounded_by (one_if is_enqueue) 1%nat 0%nat 0%nat 0%nat 0%nat.
  - bounded_by (one_if is_poll) 0%nat 1%nat 0%nat 0%nat 0%nat.
  - bounded_by (one_if is_download) 0%nat 0%nat 0%nat 1%nat 0%nat.
  - bounded_by (one_if is_sleep) 0%nat 0%nat 1%nat 0%nat 0%nat.
  - bounded_by sleep_seconds 0%nat 0%nat 10%nat 0%nat 0%nat.
  - bounded_by (one_if is_checkpoint) 0%nat 0%nat 0%nat 0%nat 1%nat.
Qed.

(** X4.  [_poll_job] makes at most [max_tries] requests and sleeps at
    most [max_tries] times [poll_interval] seconds, whatever the replies;
    with [max_tries <= 0] it makes none. *)
Theorem poll_job_is_bounded env (conf : dict) job_id poll_interval max_tries c :
  (requests (_poll_job env conf job_id poll_interval max_tries c).1.2
   <= requests c + Z.to_nat max_tries)%nat
  /\ (count is_poll (_poll_job env conf job_id poll_interval max_tries c).2
      <= Z.to_nat max_tries)%nat
  /\ (weight sleep_seconds
        (_poll_job env conf job_id poll_interval max_tries c).2
      <= Z.to_nat max_tries * Z.to_nat poll_interval)%nat.
Proof.
  split; [|split].
  - apply (poll_job_within (one_if is_poll) env (fun _ => eq_refl)).
  - rewrite <- weight_one_if.
    pose proof (poll_job_within (one_if is_poll) env (fun _ => eq_refl)
                  conf job_id poll_interval max_tries c) as [_ H].
    cbn [one_if is_poll] in H. lia.
  - pose proof (poll_job_within sleep_seconds env (fun _ => eq_refl)
                  conf job_id poll_interval max_tries c) as [_ H].
    cbn [sleep_seconds] in H. lia.
Qed.

(** ** The helpers, reply by reply *)

Lemma error_status_test resp :
  (400 <=? status_code resp) && (status_code resp <? 600) = true
  <-> error_status resp.
Proof.
  unfold error_status. rewrite andb_true_iff, Z.leb_le, Z.ltb_lt. reflexivity.
Qed.

Lemma eq_str_true v s : eq_str v s = true -> v = PStr s.
Proof.
  destruct v; simpl; try discriminate.
  intros H. apply String.eqb_eq in H. congruence.
Qed.

(** X5.  Each helper reads the configuration keys it needs before it
    does anything else: when one is missing it raises the [KeyError] of
    the first missing one, with no request made and nothing logged; so
    does [update], once it has found a window to sync. *)
Theorem missing_key_stops_before_any_request env (conf : dict) c key :
  (first_missing ["access_token"; "dataset_id"] conf = Some key ->
   forall start_ts end_ts attribute_ids,
     _enqueue_job env conf start_ts end_ts attribute_ids c
     = (Raise (KeyError key), c, []))
  /\ (first_missing ["access_token"; "app_id"; "client_id"] conf = Some key ->
      forall job_id poll_interval max_tries,
        _poll_job env conf job_id poll_interval max_tries c
        = (Raise (KeyError key), c, []))
  /\ (first_missing ["access_token"; "app_id"] conf = Some key ->
      forall job_id download_url,
        _download_csv env conf job_id download_url c
        = (Raise (KeyError key), c, []))
  /\ (first_missing ["access_token"; "dataset_id"] conf = Some key ->
      forall (state : dict) c0 start_ts end_ts,
        compute_window env conf state c0 = (Ok (start_ts, end_ts), c, []) ->
        start_ts < end_ts ->
        update env conf state c0 = (Raise (KeyError key), c, [])).
Proof.
  assert (first_missing ["access_token"; "dataset_id"] conf = Some key ->
          forall start_ts end_ts attribute_ids,
            _enqueue_job env conf start_ts end_ts attribute_ids c
            = (Raise (KeyError key), c, [])) as Henq.
  { cbn [first_missing]. intros H start_ts end_ts attribute_ids.
    unfold _enqueue_job, getitem.
    destruct (conf !! "access_token"); [|injection H as <-; reflexivity].
    destruct (conf !! "dataset_id"); [discriminate|].
    injection H as <-. reflexivity. }
  split; [exact Henq|]. split; [|split].
  - cbn [first_missing]. intros H job_id poll_interval max_tries.
    unfold _poll_job, getitem.
    destruct (conf !! "access_token"); [|injection H as <-; reflexivity].
    destruct (conf !! "app_id"); [|injection H as <-; reflexivity].
    destruct (conf !! "client_id"); [discriminate|].
    injection H as <-. reflexivity.
  - cbn [first_missing]. intros H job_id download_url.
    unfold _download_csv, getitem.
    destruct (conf !! "access_token"); [|injection H as <-; reflexivity].
    destruct (conf !! "app_id"); [discriminate|].
    injection H as <-. reflexivity.
  - intros H state c0 start_ts end_ts Hwin Hlt.
    unfold update. rewrite (bind_ok _ _ _ _ _ _ Hwin). cbn [fst snd].
    unfold sync_window.
    destruct (Z.geb_spec start_ts end_ts); [lia|].
    rewrite (bind_raise _ _ _ _ _ _ (Henq H _ _ _)). reflexivity.
Qed.

Lemma missing_token_stops_update :
  update env_export conf_no_token state_1000 c0
  = (Raise (KeyError "access_token"), tick c0, []).
Proof.
  apply (proj2 (proj2 (proj2
           (missing_key_stops_before_any_request env_export conf_no_token
              (tick c0) "access_token")))
           eq_refl state_1000 c0 1001 4601);
    [vm_compute; reflexivity | lia].
Defined.

(** X6.  With its two keys present, [_enqueue_job] makes exactly one
    request, whose body holds the dataset, the attribute ids and the
    window.  It returns the [job_identifier] of the reply exactly when
    the reply has a status outside 400 to 599 and a JSON object with that
    field; a status from 400 to 599 is raised as the HTTP error, and an
    object without the field as the [KeyError] of [job_identifier]. *)
Theorem enqueue_job_outcome
    env (conf : dict) start_ts end_ts attribute_ids c token dataset_id :
  conf !! "access_token" = Some token ->
  conf !! "dataset_id" = Some dataset_id ->
  (_enqueue_job env conf start_ts end_ts attribute_ids c).1.2 = sent 1 c
  /\ (exists rest,
        (_enqueue_job env conf start_ts end_ts attribute_ids c).2
        = EvLog [Lit "Enqueuing job for window "; Val (PInt start_ts);
                 Lit " - "; Val (PInt end_ts)]
          :: EvEnqueue (enqueue_payload dataset_id attribute_ids
                          start_ts end_ts)
          :: rest
        /\ Forall (fun ev => is_log ev = true) rest)
  /\ (forall job_id,
        (_enqueue_job env conf start_ts end_ts attribute_ids c).1.1 = Ok job_id
        <-> exists resp body,
              network env (requests c) = Some resp
              /\ ~ error_status resp
              /\ json resp = Some (PDict body)
              /\ body !! "job_identifier" = Some job_id)
  /\ (forall resp,
        network env (requests c) = Some resp -> error_status resp ->
        (_enqueue_job env conf start_ts end_ts attribute_ids c).1.1
        = Raise (HTTPError (status_code resp)))
  /\ (forall resp body,
        network env (requests c) = Some resp -> ~ error_status resp ->
        json resp = Some (PDict body) -> body !! "job_identifier" = None ->
        (_enqueue_job env conf start_ts end_ts attribute_ids c).1.1
        = Raise (KeyError "job_identifier")).
Proof.
  intros Htoken Hds. unfold _enqueue_job, getitem, http, raise_for_status,
    resp_json, enqueue_payload.
  rewrite Htoken, Hds. run.
  destruct (network env (requests c)) as [resp|] eqn:Hnet.
  2:{ cbn [fst snd]. split; [reflexivity|]. split; [by exists []|].
      split; [|split]; try discriminate.
      intros job_id. split; [discriminate|]. by intros (? & ? & ? & _). }
  destruct ((400 <=? status_code resp) && (status_code resp <? 600)) eqn:Hcode.
  { apply error_status_test in Hcode. cbn [fst snd].
    split; [reflexivity|]. split; [by exists []|]. split; [|split].
    - intros job_id. split; [discriminate|].
      intros (resp' & body & [= <-] & Hok & _). contradiction.
    - intros resp' [= <-] _. reflexivity.
    - intros resp' body [= <-] Hok. contradiction. }
  assert (~ error_status resp) as Hok.
  { rewrite <- error_status_test, Hcode. discriminate. }
  destruct (json resp) as [body|] eqn:Hjson.
  2:{ cbn [fst snd]. split; [reflexivity|]. split; [by exists []|].
      split; [|split].
      - intros job_id. split; [discriminate|].
        intros (resp' & body & [= <-] & _ & Hj & _). congruence.
      - intros resp' [= <-] Herr. contradiction.
      - intros resp' body [= <-] _ Hj. congruence. }
  destruct body as [| | | | |body]; cbn [subscript]; unfold getitem;
    try destruct (body !! "job_identifier") as [job|] eqn:Hjob;
    run; cbn [fst snd];
    (split; [reflexivity|]);
    (split; [first [ by exists []
                   | eexists; split; [reflexivity | by repeat constructor] ]|]);
    (split; [|split]);
    try (intros resp' [= <-] Herr; contradiction);
    try (intros resp' body' [= <-] _ Hj Hl; rewrite Hjson in Hj;
         first [discriminate | injection Hj as <-; congruence]);
    try (intros job_id; split; [try discriminate|];
         try (intros (resp' & body' & [= <-] & _ & Hj & Hl);
              rewrite Hjson in Hj;
              first [discriminate | injection Hj as <-; congruence])).
  intros [= <-]. exists resp, body. auto.
Qed.

Lemma enqueue_job_outcome_of_export :
  (_enqueue_job env_export demo_conf 1001 4601 (PList []) c0).1.1
  = Ok (PStr "job-1").
Proof.
  apply (proj1 (proj2 (proj2
           (enqueue_job_outcome env_export demo_conf 1001 4601 (PList []) c0
              (PStr "token") (PStr "conversation") eq_refl eq_refl)))).
  eexists _, _. split; [reflexivity|]. split; [|split; reflexivity].
  intros [Hlo _]. simpl in Hlo. lia.
Defined.

(** X7.  With its two keys present, [_download_csv] makes exactly one
    request and never a second one.  It returns the text of the reply
    exactly when the reply has a status outside 400 to 599 and a body
    that decodes; a status from 400 to 599 is raised as the HTTP error. *)
Theorem download_csv_outcome
    env (conf : dict) job_id download_url c token app_id :
  conf !! "access_token" = Some token ->
  conf !! "app_id" = Some app_id ->
  (_download_csv env conf job_id download_url c).1.2 = sent 1 c
  /\ (_download_csv env conf job_id download_url c).2
     = [EvLog [Lit "Downloading exported CSV data"];
        EvDownload job_id download_url]
  /\ (forall text,
        (_download_csv env conf job_id download_url c).1.1 = Ok text
        <-> exists resp,
              network env (requests c) = Some resp
              /\ ~ error_status resp
              /\ content resp = Some text)
  /\ (forall resp,
        network env (requests c) = Some resp -> error_status resp ->
        (_download_csv env conf job_id download_url c).1.1
        = Raise (HTTPError (status_code resp))).
Proof.
  intros Htoken Happ.
  unfold _download_csv, getitem, http, raise_for_status.
  rewrite Htoken, Happ. run.
  destruct (network env (requests c)) as [resp|] eqn:Hnet.
  2:{ cbn [fst snd]. repeat split; try discriminate.
      by intros (? & ? & _). }
  destruct ((400 <=? status_code resp) && (status_code resp <? 600)) eqn:Hcode.
  { apply error_status_test in Hcode. cbn [fst snd].
    repeat split; try discriminate.
    - intros (resp' & [= <-] & Hok & _). contradiction.
    - intros resp' [= <-] _. reflexivity. }
  assert (~ error_status resp) as Hok.
  { rewrite <- error_status_test, Hcode. discriminate. }
  destruct (content resp) as [t|] eqn:Hcontent; run; cbn [fst snd];
    repeat split; try discriminate;
    try (intros resp' [= <-] Herr; contradiction);
    try (intros (resp' & [= <-] & _ & Hc); congruence).
  intros [= <-]. exists resp. auto.
Qed.

Lemma download_csv_outcome_of_export :
  (_download_csv env_export demo_conf (PStr "job-1") (PStr "url")
     (sent 2 c0)).1.1
  = Ok demo_csv.
Proof.
  apply (proj1 (proj2 (proj2
           (download_csv_outcome env_export demo_conf (PStr "job-1")
              (PStr "url") (sent 2 c0) (PStr "token") (PStr "app")
              eq_refl eq_refl)))).
  eexists. split; [reflexivity|]. split; [|reflexivity].
  intros [Hlo _]. simpl in Hlo. lia.
Defined.

(** ** What polling returns *)

Lemma http_returns env ev c resp c1 evs :
  http env ev c = (Ok resp, c1, evs) ->
  network env (requests c) = Some resp /\ c1 = sent 1 c.
Proof.
  unfold http. destruct (network env (requests c)); [|discriminate].
  intros [= <- <- _]. auto.
Qed.

Lemma sleep_returns secs c c1 evs :
  sleep secs c = (Ok tt, c1, evs) -> c1 = c.
Proof.
  unfold sleep. destruct (secs <? 0); [discriminate|].
  intros [= <- _]. reflexivity.
Qed.

(** When the loop returns job information, it is the body of the last
    reply it read, and that body says the job is complete. *)
Lemma poll_loop_returns_complete env job_id poll_interval attempts :
  forall c info c' evs,
    poll_loop env job_id poll_interval attempts c = (Ok (Some info), c', evs) ->
    (requests c < requests c')%nat
    /\ exists resp body,
         network env (pred (requests c')) = Some resp
         /\ ~ error_status resp
         /\ status_code resp <> 404
         /\ json resp = Some (PDict body)
         /\ info = PDict body
         /\ body !! "status" = Some (PStr "complete").
Proof.
  induction attempts as [|attempt rest IH]; intros c info c' evs H;
    [discriminate|].
  cbn [poll_loop] in H.
  returned H as resp c1 evs1 Hhttp.
  apply http_returns in Hhttp as [Hnet ->].
  assert (forall c2 evs2,
            (sleep poll_interval ≫= fun _ =>
               poll_loop env job_id poll_interval rest) c2
            = (Ok (Some info), c', evs2) ->
            c2 = sent 1 c ->
            (requests c < requests c')%nat
            /\ exists resp body,
                 network env (pred (requests c')) = Some resp
                 /\ ~ error_status resp
                 /\ status_code resp <> 404
                 /\ json resp = Some (PDict body)
                 /\ info = PDict body
                 /\ body !! "status" = Some (PStr "complete")) as Hgo.
  { intros c2 evs2 Hrun ->. returned Hrun as [] c3 evs3 Hsleep.
    apply sleep_returns in Hsleep as ->.
    apply IH in Hrun as [Hlt Hlast]. split; [|exact Hlast].
    simpl in Hlt. lia. }
  destruct (Z.eqb_spec (status_code resp) 404) as [E|NE]; [by eapply Hgo|].
  returned H as [] c2 evs2 Hstatus.
  unfold raise_for_status in Hstatus.
  destruct ((400 <=? status_code resp) && (status_code resp <? 600)) eqn:Hcode;
    [discriminate|].
  injection Hstatus as <- _.
  returned H as body c3 evs3 Hjson.
  unfold resp_json in Hjson. destruct (json resp) as [b|] eqn:Ejson;
    [|discriminate].
  injection Hjson as -> <- _.
  returned H as status c4 evs4 Hget.
  destruct body as [| | | | |body]; try discriminate.
  cbn [py_get] in Hget. injection Hget as <- <- _.
  returned H as [] c5 evs5 Hlog. injection Hlog as <- _.
  destruct (eq_str _ "complete") eqn:Hcomplete.
  - injection H as <- <- _. split; [simpl; lia|].
    exists resp, body. cbn [sent requests pred Nat.add].
    split; [exact Hnet|]. split.
    { rewrite <- error_status_test, Hcode. discriminate. }
    repeat (split; [done|]).
    apply eq_str_true in Hcomplete.
    destruct (body !! "status") as [v|]; simpl in Hcomplete;
      [congruence | discriminate].
  - returned H as failed c6 evs6 Hfailed.
    unfold in_failed_or_error in Hfailed.
    destruct (hashable _); [|discriminate].
    injection Hfailed as <- <- _.
    destruct (_ || _); [discriminate|]. by eapply Hgo.
Qed.

(** X8.  When [_poll_job] returns, what it returns is the JSON object of
    the last reply it read, that reply has a status that is not an error,
    and the object's [status] is "complete". *)
Theorem poll_job_returns_complete
    env (conf : dict) job_id poll_interval max_tries c info c' evs :
  _poll_job env conf job_id poll_interval max_tries c = (Ok info, c', evs) ->
  (requests c < requests c')%nat
  /\ exists resp body,
       network env (pred (requests c')) = Some resp
       /\ ~ error_status resp
       /\ status_code resp <> 404
       /\ json resp = Some (PDict body)
       /\ info = PDict body
       /\ body !! "status" = Some (PStr "complete").
Proof.
  unfold _poll_job. intros H.
  returned H as v1 c1 evs1 H1. returned H as v2 c2 evs2 H2.
  returned H as v3 c3 evs3 H3.
  unfold getitem in H1, H2, H3.
  destruct (conf !! "access_token"); [|discriminate].
  destruct (conf !! "app_id"); [|discriminate].
  destruct (conf !! "client_id"); [|discriminate].
  injection H1 as _ <- _. injection H2 as _ <- _. injection H3 as _ <- _.
  returned H as r c4 evs4 Hloop.
  destruct r as [info'|]; [|discriminate].
  injection H as <- <- _.
  exact (poll_loop_returns_complete _ _ _ _ _ _ _ _ Hloop).
Qed.

Lemma poll_job_returns_complete_after_slow_start :
  exists resp body,
    network env_slow_start 3 = Some resp
    /\ ~ error_status resp
    /\ status_code resp <> 404
    /\ json resp = Some (PDict body)
    /\ PDict complete_info = PDict body
    /\ body !! "status" = Some (PStr "complete").
Proof.
  exact (proj2 (poll_job_returns_complete env_slow_start demo_conf
                  (PStr "job-1") 10 60 c0 (PDict complete_info) (sent 4 c0)
                  _ ltac:(vm_compute; reflexivity))).
Defined.

(** ** The window a run works on *)

(** The end of the window is the start plus the span, capped at the
    clock reading taken last. *)
Lemma compute_window_end env (conf state : dict) c start_ts end_ts c1 evs0 W :
  _as_int (dict_get conf "window_seconds") (Some 3600) = Ok (Some W) ->
  compute_window env conf state c = (Ok (start_ts, end_ts), c1, evs0) ->
  (ticks c < ticks c1)%nat
  /\ end_ts = Z.min (start_ts + W) (clock env (pred (ticks c1))).
Proof.
  intros HW. unfold compute_window. rewrite HW.
  destruct (negb (Nat.eqb (size state) 0)).
  - unfold getitem, add_int. run.
    destruct (state !! "last_end_time") as [[]|]; run;
      intros [= <- <- <- _]; simpl; split; (lia || reflexivity).
  - destruct (py_int_cases (dict_get conf "initial_start_time")) as [[n H]|H].
    + unfold _as_int. rewrite H. run. unfold not_int.
      destruct (n =? 0); intros [= <- <- <- _]; simpl; split;
        (lia || reflexivity).
    + rewrite (as_int_fallback _ None H). run.
      intros [= <- <- <- _]. simpl. split; (lia || reflexivity).
Qed.

Lemma update_without_window env (conf state : dict) c start_ts end_ts c1 :
  compute_window env conf state c = (Ok (start_ts, end_ts), c1, []) ->
  end_ts <= start_ts ->
  update env conf state c = (Ok tt, c1, [EvLog skip_message]).
Proof.
  intros Hwin Hle. unfold update. rewrite (bind_ok _ _ _ _ _ _ Hwin).
  cbn [fst snd]. unfold sync_window.
  destruct (Z.geb_spec start_ts end_ts); [reflexivity | lia].
Qed.

Lemma update_raises_with_window env (conf state : dict) c e c1 :
  compute_window env conf state c = (Raise e, c1, []) ->
  update env conf state c = (Raise e, c1, []).
Proof. intros Hwin. unfold update. apply (bind_raise _ _ _ _ _ _ Hwin). Qed.

(** A run that enqueues a job or emits a checkpoint has computed a
    window that is not empty. *)
Lemma update_worked_on_window env (conf state : dict) c r c' evs ev :
  update env conf state c = (r, c', evs) ->
  ev ∈ evs -> is_log ev = false ->
  exists start_ts end_ts c1,
    compute_window env conf state c = (Ok (start_ts, end_ts), c1, [])
    /\ start_ts < end_ts
    /\ window_event conf start_ts end_ts ev.
Proof.
  intros Hrun Hin Hev.
  destruct (compute_window env conf state c) as [[[[s e]|ex] c1] evs1] eqn:Hwin;
    destruct (compute_window_silent _ _ _ _ _ _ _ Hwin) as (-> & _ & _).
  - destruct (Z.le_gt_cases e s) as [Hle|Hlt].
    + rewrite (update_without_window _ _ _ _ _ _ _ Hwin Hle) in Hrun.
      injection Hrun as _ _ <-. apply list_elem_of_singleton in Hin.
      subst ev. discriminate.
    + exists s, e, c1. split; [reflexivity|]. split; [lia|].
      pose proof (update_events _ _ _ _ _ _ _ _ _ _ Hwin Hrun) as Hall.
      rewrite Forall_forall in Hall. exact (Hall _ Hin).
  - rewrite (update_raises_with_window _ _ _ _ _ _ Hwin) in Hrun.
    injection Hrun as _ _ <-. by apply elem_of_nil in Hin.
Qed.

(** X9.  Whenever [update] enqueues a job, the window it asks for is not
    empty, is no wider than the configured span, and does not reach past
    the clock reading the run took. *)
Theorem enqueued_window_is_sound
    env (conf state : dict) c r c' evs payload W :
  update env conf state c = (r, c', evs) ->
  EvEnqueue payload ∈ evs ->
  _as_int (dict_get conf "window_seconds") (Some 3600) = Ok (Some W) ->
  exists start_ts end_ts c1,
    compute_window env conf state c = (Ok (start_ts, end_ts), c1, [])
    /\ payload !! "start_time" = Some (PInt start_ts)
    /\ payload !! "end_time" = Some (PInt end_ts)
    /\ start_ts < end_ts
    /\ end_ts <= start_ts + W
    /\ end_ts <= clock env (pred (ticks c1)).
Proof.
  intros Hrun Hin HW.
  destruct (update_worked_on_window _ _ _ _ _ _ _ _ Hrun Hin eq_refl)
    as (s & e & c1 & Hwin & Hlt & Hs & He & _).
  exists s, e, c1. repeat (split; [done|]).
  destruct (compute_window_end _ _ _ _ _ _ _ _ _ HW Hwin) as [_ ->]. lia.
Qed.

Lemma enqueued_window_of_export :
  exists start_ts end_ts c1,
    compute_window env_export demo_conf state_1000 c0
    = (Ok (start_ts, end_ts), c1, [])
    /\ demo_payload !! "start_time" = Some (PInt start_ts)
    /\ demo_payload !! "end_time" = Some (PInt end_ts)
    /\ start_ts < end_ts
    /\ end_ts <= start_ts + 3600
    /\ end_ts <= clock env_export (pred (ticks c1)).
Proof.
  apply (enqueued_window_is_sound env_export demo_conf state_1000 c0
           _ _ _ demo_payload 3600 (run_eta _));
    [vm_compute; repeat constructor | reflexivity].
Defined.

(** X10.  A checkpoint that a run resumed from [last_end_time = t]
    emits is strictly later than [t] and not later than the clock
    reading: the checkpoint never stands still and never moves back or
    ahead of the clock. *)
Theorem checkpoint_advances
    env (conf state : dict) c r c' evs new_state t :
  update env conf state c = (r, c', evs) ->
  state !! "last_end_time" = Some (PInt t) ->
  EvCheckpoint new_state ∈ evs ->
  exists end_ts,
    new_state = {["last_end_time" := PInt end_ts]}
    /\ t + 1 < end_ts
    /\ end_ts <= clock env (ticks c).
Proof.
  intros Hrun Hstate Hin.
  destruct (update_worked_on_window _ _ _ _ _ _ _ _ Hrun Hin eq_refl)
    as (s & e & c1 & Hwin & Hlt & Hck).
  destruct (as_int_window_seconds (dict_get conf "window_seconds")) as [W HW].
  rewrite (compute_window_resume env conf state c t W Hstate HW) in Hwin.
  injection Hwin as <- <- _.
  exists (Z.min (t + 1 + W) (clock env (ticks c))).
  split; [exact Hck|]. lia.
Qed.

Lemma checkpoint_advances_in_export :
  exists end_ts,
    ({["last_end_time" := PInt 4601]} : dict)
    = {["last_end_time" := PInt end_ts]}
    /\ 1000 + 1 < end_ts
    /\ end_ts <= clock env_export (ticks c0).
Proof.
  apply (checkpoint_advances env_export demo_conf state_1000 c0 _ _ _
           {["last_end_time" := PInt 4601]} 1000 (run_eta _));
    [reflexivity | vm_compute; repeat constructor].
Defined.

(** X11.  The state a run checkpoints is one the next run resumes from:
    the next window starts one second after the end of the window just
    synced, whatever the next environment. *)
Theorem next_window_follows
    env (conf state : dict) c r c' evs new_state :
  update env conf state c = (r, c', evs) ->
  EvCheckpoint new_state ∈ evs ->
  exists start_ts end_ts c1,
    compute_window env conf state c = (Ok (start_ts, end_ts), c1, [])
    /\ forall env2 c2,
         exists W,
           _as_int (dict_get conf "window_seconds") (Some 3600) = Ok (Some W)
           /\ compute_window env2 conf new_state c2
              = (Ok (end_ts + 1,
                     Z.min (end_ts + 1 + W) (clock env2 (ticks c2))),
                 tick c2, []).
Proof.
  intros Hrun Hin.
  destruct (update_worked_on_window _ _ _ _ _ _ _ _ Hrun Hin eq_refl)
    as (s & e & c1 & Hwin & _ & Hck).
  simpl in Hck. subst new_state.
  exists s, e, c1. split; [exact Hwin|]. intros env2 c2.
  destruct (as_int_window_seconds (dict_get conf "window_seconds")) as [W HW].
  exists W. split; [exact HW|].
  apply compute_window_resume; [apply lookup_singleton_eq | exact HW].
Qed.

Lemma next_window_after_export :
  exists start_ts end_ts c1,
    compute_window env_export demo_conf state_1000 c0
    = (Ok (start_ts, end_ts), c1, [])
    /\ forall env2 c2,
         exists W,
           _as_int (dict_get demo_conf "window_seconds") (Some 3600)
           = Ok (Some W)
           /\ compute_window env2 demo_conf {["last_end_time" := PInt 4601]} c2
              = (Ok (end_ts + 1,
                     Z.min (end_ts + 1 + W) (clock env2 (ticks c2))),
                 tick c2, []).
Proof.
  apply (next_window_follows env_export demo_conf state_1000 c0 _ _ _
           {["last_end_time" := PInt 4601]} (run_eta _)).
  vm_compute. repeat constructor.
Defined.

(** X12.  With a span that is zero or negative no run ever syncs
    anything: it makes no request and emits no operation, only log
    lines. *)
Theorem nonpositive_span_never_syncs
    env (conf state : dict) c r c' evs W :
  _as_int (dict_get conf "window_seconds") (Some 3600) = Ok (Some W) ->
  W <= 0 ->
  update env conf state c = (r, c', evs) ->
  requests c' = requests c
  /\ offered c' = offered c
  /\ Forall (fun ev => is_log ev = true) evs.
Proof.
  intros HW Hneg Hrun.
  destruct (compute_window env conf state c) as [[[[s e]|ex] c1] evs1] eqn:Hwin;
    destruct (compute_window_silent _ _ _ _ _ _ _ Hwin) as (-> & Hreq & Hoff).
  - destruct (compute_window_end _ _ _ _ _ _ _ _ _ HW Hwin) as [_ He].
    rewrite (update_without_window _ _ _ _ _ _ _ Hwin) in Hrun by lia.
    injection Hrun as _ <- <-. repeat split; [done | done |].
    by repeat constructor.
  - rewrite (update_raises_with_window _ _ _ _ _ _ Hwin) in Hrun.
    injection Hrun as _ <- <-. repeat split; [done | done | constructor].
Qed.

Lemma negative_span_never_syncs :
  requests (update env_export conf_negative_span state_1000 c0).1.2
  = requests c0
  /\ offered (update env_export conf_negative_span state_1000 c0).1.2
     = offered c0
  /\ Forall (fun ev => is_log ev = true)
       (update env_export conf_negative_span state_1000 c0).2.
Proof.
  apply (nonpositive_span_never_syncs env_export conf_negative_span
           state_1000 c0 _ _ _ (-60) eq_refl ltac:(lia) (run_eta _)).
Defined.

(** X13.  A prior state that is not empty must hold a numeric
    [last_end_time]: without the key the run raises its [KeyError], with
    a value that is not a number a [TypeError], in both cases before any
    clock reading, request or event. *)
Theorem unusable_state_is_an_error env (conf state : dict) c :
  (state <> ∅ -> state !! "last_end_time" = None ->
   update env conf state c = (Raise (KeyError "last_end_time"), c, []))
  /\ (forall v,
        state !! "last_end_time" = Some v -> is_number v = false ->
        update env conf state c = (Raise TypeError, c, [])).
Proof.
  destruct (as_int_window_seconds (dict_get conf "window_seconds")) as [W HW].
  split.
  - intros Hne Hkey. apply update_raises_with_window.
    unfold compute_window. rewrite HW.
    assert (negb (Nat.eqb (size state) 0) = true) as ->.
    { destruct (Nat.eqb_spec (size state) 0) as [E|]; [|reflexivity].
      apply map_size_empty_iff in E. contradiction. }
    unfold getitem. rewrite Hkey. reflexivity.
  - intros v Hkey Hv. apply update_raises_with_window.
    unfold compute_window. rewrite HW, (nonempty_of_lookup _ _ _ Hkey).
    unfold getitem. rewrite Hkey. destruct v; try discriminate; reflexivity.
Qed.

Lemma foreign_and_text_states_are_errors :
  update env_export demo_conf state_foreign c0
  = (Raise (KeyError "last_end_time"), c0, [])
  /\ update env_export demo_conf state_text c0 = (Raise TypeError, c0, []).
Proof.
  destruct (unusable_state_is_an_error env_export demo_conf state_foreign c0)
    as [Hforeign _].
  destruct (unusable_state_is_an_error env_export demo_conf state_text c0)
    as [_ Htext].
  split.
  - apply Hforeign; [|reflexivity].
    intros E. apply (f_equal (fun m : dict => m !! "cursor")) in E.
    discriminate.
  - apply (Htext (PStr "1000")); reflexivity.
Defined.

(** ** Attribute ids, in and out *)

Lemma split_nonempty sep s : split sep s <> [].
Proof.
  destruct s as [|c s']; [discriminate|]. cbn [split].
  destruct (Ascii.eqb c sep); [discriminate|].
  destruct (split sep s'); discriminate.
Qed.

Lemma split_segments_lack_sep sep s :
  Forall (fun seg => has_char sep seg = false) (split sep s).
Proof.
  induction s as [|c s' IH]; [by repeat constructor|].
  cbn [split]. destruct (Ascii.eqb c sep) eqn:Hc; [by constructor|].
  destruct (split sep s') as [|h t].
  { constructor; [|constructor]. cbn [has_char]. by rewrite Hc. }
  inversion IH as [|? ? Hh Ht]; subst. constructor; [|exact Ht].
  cbn [has_char]. rewrite Hc, Hh. reflexivity.
Qed.

Lemma lstrip_by_lacks space ch s :
  has_char ch s = false -> has_char ch (lstrip_by space s) = false.
Proof.
  induction s as [|c s' IH]; [done|]. cbn [lstrip_by has_char].
  intros H. apply orb_false_elim in H as [Hc Hs].
  destruct (space c); [by apply IH|]. cbn [has_char]. by rewrite Hc, Hs.
Qed.

Lemma rstrip_by_lacks space ch s :
  has_char ch s = false -> has_char ch (rstrip_by space s) = false.
Proof.
  induction s as [|c s' IH]; [done|]. cbn [rstrip_by has_char].
  intros H. apply orb_false_elim in H as [Hc Hs]. specialize (IH Hs).
  destruct (rstrip_by space s') as [|c' r].
  - destruct (space c); [done|]. cbn [has_char]. by rewrite Hc.
  - cbn [has_char] in *. by rewrite Hc, IH.
Qed.

Lemma lstrip_by_head space s c t :
  lstrip_by space s = String c t -> space c = false.
Proof.
  induction s as [|c' s' IH]; [discriminate|]. cbn [lstrip_by].
  destruct (space c') eqn:Hc'; [exact IH|]. intros [= <- _]. exact Hc'.
Qed.

Lemma rstrip_by_idempotent space s :
  rstrip_by space (rstrip_by space s) = rstrip_by space s.
Proof.
  induction s as [|c s' IH]; [reflexivity|]. cbn [rstrip_by].
  destruct (rstrip_by space s') as [|c' r] eqn:Hr.
  - destruct (space c) eqn:Hc; [reflexivity|]. cbn [rstrip_by]. by rewrite Hc.
  - cbn [rstrip_by]. cbn [rstrip_by] in IH. rewrite IH. reflexivity.
Qed.

Lemma rstrip_by_keeps_head space c t :
  space c = false -> exists t', rstrip_by space (String c t) = String c t'.
Proof.
  intros Hc. cbn [rstrip_by]. destruct (rstrip_by space t); [|by eexists].
  rewrite Hc. by eexists.
Qed.

Lemma strip_idempotent s : strip (strip s) = strip s.
Proof.
  unfold strip. destruct (lstrip_by is_space s) as [|c t] eqn:Hl; [reflexivity|].
  apply lstrip_by_head in Hl.
  destruct (rstrip_by_keeps_head is_space c t Hl) as [t' Ht'].
  rewrite Ht'. cbn [lstrip_by]. rewrite Hl, <- Ht'.
  apply rstrip_by_idempotent.
Qed.

(** X14.  The ids parsed out of an [attribute_ids] string are well
    formed: none is empty, none holds a comma, none has whitespace at
    either end. *)
Theorem parsed_ids_are_well_formed (s : string) :
  exists ids,
    attribute_ids_of (PStr s) = PList (PStr <$> ids)
    /\ Forall well_formed_id ids.
Proof.
  exists (strip <$> filter (fun seg => truthy (PStr (strip seg)) = true)
                      (split "," s)).
  split; [reflexivity|].
  apply Forall_fmap, Forall_forall. intros seg Hin.
  apply list_elem_of_filter in Hin as [Hseg Hin]. apply truthy_str in Hseg.
  pose proof (split_segments_lack_sep "," s) as Hsep.
  rewrite Forall_forall in Hsep. specialize (Hsep _ Hin).
  split; [exact Hseg|]. split; [|apply strip_idempotent].
  unfold strip. by apply rstrip_by_lacks, lstrip_by_lacks.
Qed.

Lemma split_lacking_sep sep x : has_char sep x = false -> split sep x = [x].
Proof.
  induction x as [|c x' IH]; [reflexivity|]. cbn [has_char split].
  intros H. apply orb_false_elim in H as [Hc Hx]. rewrite Hc, (IH Hx).
  reflexivity.
Qed.

Lemma split_app_sep sep x rest :
  has_char sep x = false ->
  split sep (String.append x (String sep rest)) = x :: split sep rest.
Proof.
  induction x as [|c x' IH]; intros H.
  - change (String.append "" (String sep rest)) with (String sep rest).
    cbn [split]. by rewrite Ascii.eqb_refl.
  - cbn [has_char] in H. apply orb_false_elim in H as [Hc Hx].
    change (String.append (String c x') (String sep rest))
      with (String c (String.append x' (String sep rest))).
    cbn [split]. rewrite Hc, (IH Hx). reflexivity.
Qed.

Lemma split_concat (ids : list string) :
  ids <> [] ->
  Forall (fun x => has_char "," x = false) ids ->
  split "," (String.concat "," ids) = ids.
Proof.
  induction ids as [|x ids IH]; [done|]. intros _ Hall.
  inversion Hall as [|? ? Hx Hids]; subst.
  destruct ids as [|y ids]; [by apply split_lacking_sep|].
  change (String.concat "," (x :: y :: ids))
    with (String.append x (String "," (String.concat "," (y :: ids)))).
  rewrite (split_app_sep _ _ _ Hx), IH by done. reflexivity.
Qed.

(** X15.  Writing well-formed ids as one comma-separated string and
    parsing that string gives the ids back. *)
Theorem joined_ids_parse_back (ids : list string) :
  Forall well_formed_id ids ->
  attribute_ids_of (PStr (String.concat "," ids)) = PList (PStr <$> ids).
Proof.
  intros Hall. destruct ids as [|x ids]; [reflexivity|].
  cbn [attribute_ids_of]. rewrite split_concat; [|done|].
  2:{ eapply Forall_impl; [exact Hall|]. by intros y (_ & Hy & _). }
  do 2 f_equal.
  induction Hall as [|y ys (Hne & _ & Hstrip) Hys IH]; [reflexivity|].
  rewrite filter_cons, Hstrip.
  rewrite decide_True by (by apply truthy_str).
  rewrite fmap_cons, Hstrip, IH. reflexivity.
Qed.

Lemma joined_ids_parse_back_example :
  attribute_ids_of (PStr (String.concat "," ["user.id"; "first name"]))
  = PList [PStr "user.id"; PStr "first name"].
Proof.
  apply (joined_ids_parse_back ["user.id"; "first name"]).
  repeat constructor; discriminate.
Defined.

(** X16.  An [attribute_ids] that is not a string is not checked: a
    falsy one (absent, [None], an empty list, zero) is sent as the empty
    list, and any other is sent as it is. *)
Theorem unparsed_attribute_ids
    env (conf state : dict) c r c' evs payload :
  update env conf state c = (r, c', evs) ->
  EvEnqueue payload ∈ evs ->
  (truthy (dict_get conf "attribute_ids") = false ->
   payload !! "attribute_ids" = Some (PList []))
  /\ (truthy (dict_get conf "attribute_ids") = true ->
      (forall s, dict_get conf "attribute_ids" <> PStr s) ->
      payload !! "attribute_ids" = Some (dict_get conf "attribute_ids")).
Proof.
  intros Hrun Hin.
  rewrite (update_enqueue_attribute_ids _ _ _ _ _ _ _ _ Hrun Hin).
  destruct (dict_get conf "attribute_ids") as [|b|n|s|l|d] eqn:Hraw; split;
    intros Ht; try intros Hs; cbn [attribute_ids_of];
    try rewrite Ht; try reflexivity.
  - apply not_true_iff_false in Ht. rewrite truthy_str in Ht.
    destruct s; [reflexivity | by destruct Ht].
  - by destruct (Hs s).
Qed.

Lemma absent_attribute_ids_are_sent_empty :
  enqueue_payload (PStr "conversation") (PList []) 1001 4601
    !! "attribute_ids"
  = Some (PList []).
Proof.
  apply (proj1 (unparsed_attribute_ids env_export conf_no_attributes
                  state_1000 c0 _ _ _
                  (enqueue_payload (PStr "conversation") (PList []) 1001 4601)
                  (run_eta _) ltac:(vm_compute; repeat constructor))).
  reflexivity.
Defined.

(** ** Runs that stop half way *)

(** X17.  When the job completes but its information has no
    [download_url], the run raises the [KeyError] of that key: no
    download request is made, nothing is upserted or checkpointed, and
    the events are those of the enqueue and the polls. *)
Theorem missing_download_url_stops_the_run
    env (conf state : dict) c start_ts end_ts c1 job_id c2 evs2 info c3 evs3 :
  compute_window env conf state c = (Ok (start_ts, end_ts), c1, []) ->
  start_ts < end_ts ->
  _enqueue_job env conf start_ts end_ts
    (attribute_ids_of (dict_get conf "attribute_ids")) c1
  = (Ok job_id, c2, evs2) ->
  _poll_job env conf job_id 10 60 c2 = (Ok (PDict info), c3, evs3) ->
  info !! "download_url" = None ->
  update env conf state c
  = (Raise (KeyError "download_url"), c3, evs2 ++ evs3)
  /\ Forall (fun ev => is_workflow ev = true) (evs2 ++ evs3)
  /\ count is_download (evs2 ++ evs3) = 0%nat.
Proof.
  intros Hwin Hlt Henq Hpoll Hurl.
  assert (Forall (fun ev => is_workflow ev = true
                            /\ is_download ev = false) (evs2 ++ evs3)) as Hall.
  { apply Forall_app. split.
    - eapply emits_of_run; [|exact Henq]. by apply enqueue_emits.
    - eapply emits_of_run; [|exact Hpoll]. by apply poll_job_emits. }
  split; [|split].
  - unfold update. rewrite (bind_ok _ _ _ _ _ _ Hwin). cbn [fst snd app].
    unfold sync_window. destruct (Z.geb_spec start_ts end_ts); [lia|].
    rewrite (bind_ok _ _ _ _ _ _ Henq), (bind_ok _ _ _ _ _ _ Hpoll).
    cbn [subscript]. unfold getitem. rewrite Hurl.
    rewrite (bind_raise _ _ c3 (KeyError "download_url") c3 []) by reflexivity.
    rewrite app_nil_r. reflexivity.
  - eapply Forall_impl; [exact Hall|]. by intros ev [? _].
  - unfold count. induction Hall as [|ev evs [_ Hev] _ IH]; [reflexivity|].
    rewrite filter_cons, decide_False by (rewrite Hev; discriminate).
    exact IH.
Qed.

Lemma missing_download_url_scenario :
  exists evs,
    update env_no_url demo_conf state_1000 c0
    = (Raise (KeyError "download_url"), sent 2 (tick c0), evs)
    /\ Forall (fun ev => is_workflow ev = true) evs
    /\ count is_download evs = 0%nat.
Proof.
  eexists.
  eapply (missing_download_url_stops_the_run env_no_url demo_conf state_1000
            c0 1001 4601 (tick c0) (PStr "job-1") (sent 1 (tick c0)) _
            {["status" := PStr "complete"]} (sent 2 (tick c0)) _);
    [vm_compute; reflexivity | lia | vm_compute; reflexivity
    | vm_compute; reflexivity | reflexivity].
Defined.

Lemma raises_only_run {A} Q (m : M A) c e c' evs :
  raises_only Q m -> m c = (Raise e, c', evs) -> Q e.
Proof. intros H E. specialize (H c). rewrite E in H. exact H. Qed.

Lemma raises_only_lift {A} (Q : Exn -> Prop) (r : Res A) :
  (forall e, r = Raise e -> Q e) -> raises_only Q (lift r).
Proof. intros H c. simpl. destruct r; [exact I | by apply H]. Qed.

Section NoCsvError.

Context (env : Env).

Let not_csv (e : Exn) : Prop := e <> CsvError.

Lemma http_not_csv ev : raises_only not_csv (http env ev).
Proof. intros c. unfold http. by destruct (network env (requests c)). Qed.

Lemma raise_for_status_not_csv resp :
  raises_only not_csv (raise_for_status resp).
Proof.
  unfold raise_for_status.
  destruct (_ && _); [by apply raises_only_raise | apply raises_only_ret].
Qed.

Lemma subscript_not_csv v key : raises_only not_csv (subscript v key).
Proof.
  destruct v; simpl; try (by apply raises_only_raise).
  by apply raises_only_getitem.
Qed.

Lemma compute_window_not_csv (conf state : dict) :
  raises_only not_csv (compute_window env conf state).
Proof.
  intros c. destruct (as_int_window_seconds (dict_get conf "window_seconds"))
    as [W HW].
  unfold compute_window. rewrite HW.
  destruct (negb (Nat.eqb (size state) 0)).
  - unfold getitem, add_int. run.
    by destruct (state !! "last_end_time") as [[]|].
  - destruct (py_int_cases (dict_get conf "initial_start_time")) as [[n H]|H].
    + unfold _as_int. rewrite H. run. unfold not_int. by destruct (n =? 0).
    + rewrite (as_int_fallback _ None H). by run.
Qed.

Lemma enqueue_not_csv (conf : dict) start_ts end_ts attribute_ids :
  raises_only not_csv (_enqueue_job env conf start_ts end_ts attribute_ids).
Proof.
  unfold _enqueue_job.
  do 2 (apply raises_only_bind; [by apply raises_only_getitem | intros ?]).
  apply raises_only_bind; [apply raises_only_emit | intros _].
  apply raises_only_bind; [apply http_not_csv | intros resp].
  apply raises_only_bind; [apply raise_for_status_not_csv | intros _].
  apply raises_only_bind.
  { unfold resp_json. destruct (json resp);
      [apply raises_only_ret | by apply raises_only_raise]. }
  intros body. apply raises_only_bind; [apply subscript_not_csv | intros job].
  apply raises_only_bind; [apply raises_only_emit | intros _].
  apply raises_only_ret.
Qed.

Lemma poll_loop_not_csv job_id poll_interval attempts :
  raises_only not_csv (poll_loop env job_id poll_interval attempts).
Proof.
  assert (raises_only not_csv (sleep poll_interval)) as Hsleep.
  { unfold sleep. destruct (_ <? _);
      [by apply raises_only_raise | apply raises_only_emit]. }
  induction attempts as [|attempt rest IH]; [apply raises_only_ret|].
  cbn [poll_loop]. apply raises_only_bind; [apply http_not_csv | intros resp].
  destruct (status_code resp =? 404).
  { apply raises_only_bind; [exact Hsleep | intros _; exact IH]. }
  apply raises_only_bind; [apply raise_for_status_not_csv | intros _].
  apply raises_only_bind.
  { unfold resp_json. destruct (json resp);
      [apply raises_only_ret | by apply raises_only_raise]. }
  intros info. apply raises_only_bind.
  { destruct info; simpl; try (by apply raises_only_raise).
    apply raises_only_ret. }
  intros status. apply raises_only_bind; [apply raises_only_emit | intros _].
  destruct (eq_str status "complete"); [apply raises_only_ret|].
  apply raises_only_bind.
  { unfold in_failed_or_error. destruct (hashable status);
      [apply raises_only_ret | by apply raises_only_raise]. }
  intros [|]; [by apply raises_only_raise|].
  apply raises_only_bind; [exact Hsleep | intros _; exact IH].
Qed.

Lemma poll_job_not_csv (conf : dict) job_id poll_interval max_tries :
  raises_only not_csv (_poll_job env conf job_id poll_interval max_tries).
Proof.
  unfold _poll_job.
  do 3 (apply raises_only_bind; [by apply raises_only_getitem | intros _]).
  apply raises_only_bind; [apply poll_loop_not_csv|].
  intros [info|]; [apply raises_only_ret | by apply raises_only_raise].
Qed.

Lemma download_not_csv (conf : dict) job_id download_url :
  raises_only not_csv (_download_csv env conf job_id download_url).
Proof.
  unfold _download_csv.
  do 2 (apply raises_only_bind; [by apply raises_only_getitem | intros _]).
  apply raises_only_bind; [apply raises_only_emit | intros _].
  apply raises_only_bind; [apply http_not_csv | intros resp].
  apply raises_only_bind; [apply raise_for_status_not_csv | intros _].
  destruct (content resp); [apply raises_only_ret | by apply raises_only_raise].
Qed.

Lemma upsert_rows_not_csv (conf : dict) rows row_count :
  raises_only not_csv (upsert_rows env conf rows row_count).
Proof.
  revert row_count. induction rows as [|r rest IH]; intros row_count;
    [apply raises_only_ret|].
  cbn [upsert_rows].
  apply raises_only_bind; [by apply raises_only_getitem | intros table].
  apply raises_only_bind; [|intros _; apply IH].
  intros c. unfold upsert. by destruct (sink env (offered c)).
Qed.

End NoCsvError.

(** [H] is a run of [m ≫= k] that raised [CsvError], and [m] cannot
    raise it: then [m] returned, [Hm], and [H] becomes the run of [k]. *)
Tactic Notation "passed" hyp(H) "by" constr(lem) "as" simple_intropattern(a)
    simple_intropattern(c1) simple_intropattern(evs1) ident(Hm) :=
  apply bind_inv in H as [(? & ? & H) | (a & c1 & evs1 & ? & Hm & H & ->)];
  [ exfalso;
    match goal with
    | E : Raise CsvError = Raise ?e |- _ => injection E as <-
    end;
    exact (raises_only_run _ _ _ _ _ _ lem H eq_refl)
  | ].

(** X18.  A run that ends in a CSV error has already upserted every row
    that was decoded before the malformed record, in order, and has
    emitted no checkpoint: the rows are delivered as they are decoded,
    not held back until the payload is known to be sound. *)
Theorem csv_error_follows_the_rows_before_it
    env (conf state : dict) c c' evs :
  update env conf state c = (Raise CsvError, c', evs) ->
  exists pre job_id download_url resp text rows,
    network env (pred (requests c')) = Some resp
    /\ content resp = Some text
    /\ DictReader text = (rows, Some CsvError)
    /\ Forall (fun ev => is_workflow ev = true) pre
    /\ evs = pre ++ [EvDownload job_id download_url]
             ++ (upsert_event conf <$> rows).
Proof.
  unfold update. intros H.
  passed H by (compute_window_not_csv env conf state) as [s e] c1 evs1 Hwin.
  destruct (compute_window_silent _ _ _ _ _ _ _ Hwin) as (-> & _ & _).
  cbn [fst snd] in H. unfold sync_window in H.
  destruct (s >=? e); [discriminate|].
  passed H by (enqueue_not_csv env conf s e
                 (attribute_ids_of (dict_get conf "attribute_ids")))
    as job_id c2 evs2 Henq.
  passed H by (poll_job_not_csv env conf job_id 10 60) as info c3 evs3 Hpoll.
  passed H by (subscript_not_csv info "download_url") as url c4 evs4 Hsub.
  passed H by (download_not_csv env conf job_id url) as text c5 evs5 Hdl.
  passed H by (upsert_rows_not_csv env conf (DictReader text).1 0)
    as n c6 evs6 Hrows.
  apply (emits_of_run (fun ev => is_workflow ev = true)) in Henq;
    [|by apply enqueue_emits].
  apply (emits_of_run (fun ev => is_workflow ev = true)) in Hpoll;
    [|by apply poll_job_emits].
  apply subscript_silent in Hsub as [-> ->].
  apply download_returns in Hdl as (resp & Hnet & Hcontent & -> & ->).
  apply upsert_rows_returns in Hrows as (-> & Hreq & ->).
  destruct (DictReader text) as [rows err] eqn:HDR. cbn [fst snd] in H |- *.
  destruct err as [e0|]; [|revert H; run; discriminate].
  revert H. run. intros H.
  assert (e0 = CsvError) as -> by congruence.
  assert (c' = c6) as -> by congruence.
  match type of H with
  | (_, _, ?l) = (_, _, ?x) => assert (x = l) as -> by congruence
  end.
  exists (evs2 ++ evs3 ++ [EvLog [Lit "Downloading exported CSV data"]]),
    job_id, url, resp, text, rows.
  split; [rewrite Hreq; exact Hnet|]. split; [exact Hcontent|].
  split; [exact HDR|]. split.
  - repeat (apply Forall_app; split); auto.
  - rewrite app_nil_r, <- !app_assoc. reflexivity.
Qed.

Lemma csv_error_after_one_row :
  exists pre job_id download_url resp text rows,
    network env_broken_csv 2 = Some resp
    /\ content resp = Some text
    /\ DictReader text = (rows, Some CsvError)
    /\ Forall (fun ev => is_workflow ev = true) pre
    /\ (update env_broken_csv demo_conf state_1000 c0).2
       = pre ++ [EvDownload job_id download_url]
         ++ (upsert_event demo_conf <$> rows).
Proof.
  exact (csv_error_follows_the_rows_before_it env_broken_csv demo_conf
           state_1000 c0 (mkCounters 1 3 1) _
           ltac:(vm_compute; reflexivity)).
Defined.

(** ** The columns of a decoded row *)

Lemma dict_of_pairs_keeps (pairs : list (option string * PyVal)) :
  forall (d : row) k,
    is_Some (d !! k) \/ k ∈ pairs.*1 ->
    is_Some (foldl (fun d kv => <[kv.1 := kv.2]> d) d pairs !! k).
Proof.
  induction pairs as [|[k0 v0] pairs IH]; intros d k H.
  - destruct H as [H|H]; [exact H | by apply elem_of_nil in H].
  - cbn [foldl]. apply IH. cbn [fst snd].
    destruct (decide (k0 = k)) as [->|Hne].
    + left. rewrite lookup_insert_eq. by eexists.
    + destruct H as [H|H].
      * left. by rewrite lookup_insert_ne.
      * rewrite fmap_cons in H. apply elem_of_cons in H as [H|H];
          [by destruct Hne | by right].
Qed.

Lemma restval_keeps (keys : list string) :
  forall (d : row) k,
    is_Some (d !! k) \/ k ∈ (Some <$> keys) ->
    is_Some (foldl (fun d key => <[Some key := PNone]> d) d keys !! k).
Proof.
  induction keys as [|key keys IH]; intros d k H.
  - destruct H as [H|H]; [exact H | by apply elem_of_nil in H].
  - cbn [foldl]. apply IH.
    destruct (decide (Some key = k)) as [<-|Hne].
    + left. rewrite lookup_insert_eq. by eexists.
    + destruct H as [H|H].
      * left. by rewrite lookup_insert_ne.
      * rewrite fmap_cons in H. apply elem_of_cons in H as [H|H];
          [by destruct Hne | by right].
Qed.

Lemma restval_keys (keys : list string) :
  forall (d : row) k,
    is_Some (foldl (fun d key => <[Some key := PNone]> d) d keys !! k) ->
    is_Some (d !! k) \/ k ∈ (Some <$> keys).
Proof.
  induction keys as [|key keys IH]; intros d k H; [by left|].
  cbn [foldl] in H. apply IH in H as [H|H].
  - destruct (decide (Some key = k)) as [<-|Hne].
    + right. rewrite fmap_cons. left.
    + left. by rewrite lookup_insert_ne in H.
  - right. rewrite fmap_cons. by right.
Qed.

Lemma zip_keys (fieldnames record : list string) f :
  f ∈ take (length record) fieldnames ->
  Some f ∈ (zip (Some <$> fieldnames) (PStr <$> record)).*1.
Proof.
  revert record. induction fieldnames as [|g fieldnames IH]; intros record H.
  - rewrite take_nil in H. by apply elem_of_nil in H.
  - destruct record as [|x record]; [by apply elem_of_nil in H|].
    cbn [length take] in H. cbn. apply elem_of_cons in H as [->|H].
    + left.
    + right. by apply IH.
Qed.

(** X19.  A decoded row, cleaned, has a value for every column of the
    header, whatever the length of its record, and no key besides the
    header's columns and [None], the key under which the fields of a
    record longer than the header are kept. *)
Theorem decoded_rows_have_the_header_columns fieldnames record :
  (forall f, f ∈ fieldnames ->
             is_Some (cleaned (dict_row fieldnames record) !! Some f))
  /\ (forall k, is_Some (cleaned (dict_row fieldnames record) !! k) ->
                k = None \/ exists f, k = Some f /\ f ∈ fieldnames)
  /\ (is_Some (cleaned (dict_row fieldnames record) !! None)
      <-> (length fieldnames < length record)%nat).
Proof.
  assert (forall k, is_Some (cleaned (dict_row fieldnames record) !! k)
                    <-> is_Some (dict_row fieldnames record !! k)) as Hclean.
  { intros k. unfold cleaned. rewrite lookup_fmap. apply fmap_is_Some. }
  assert (forall k,
            is_Some (dict_of_pairs
                       (zip (Some <$> fieldnames) (PStr <$> record)) !! k) ->
            exists f, k = Some f /\ f ∈ fieldnames) as Hzip.
  { intros k [v H]. apply dict_of_pairs_lookup in H as [H|H].
    - rewrite lookup_empty in H. discriminate.
    - apply elem_of_zip_l in H. apply list_elem_of_fmap in H as (f & -> & Hf).
      by exists f. }
  split; [|split].
  - intros f Hf. apply Hclean. unfold dict_row.
    destruct (Nat.ltb_spec (length fieldnames) (length record)) as [Hlt|Hge].
    + rewrite lookup_insert_ne by done. apply dict_of_pairs_keeps. right.
      apply zip_keys. rewrite take_ge by lia. exact Hf.
    + rewrite <- (take_drop (length record) fieldnames) in Hf.
      apply elem_of_app in Hf as [Hf|Hf].
      * apply restval_keeps. left. apply dict_of_pairs_keeps. right.
        by apply zip_keys.
      * apply restval_keeps. right. by apply list_elem_of_fmap_2.
  - intros k Hk. apply Hclean in Hk. unfold dict_row in Hk.
    destruct (length fieldnames <? length record)%nat.
    + destruct (decide (None = k)) as [<-|Hne]; [by left|].
      rewrite lookup_insert_ne in Hk by done. right. by apply Hzip.
    + apply restval_keys in Hk as [Hk|Hk]; right; [by apply Hzip|].
      apply list_elem_of_fmap in Hk as (f & -> & Hf). exists f.
      split; [done|]. eapply (subseteq_drop (length record)), Hf.
  - rewrite Hclean. unfold dict_row.
    destruct (Nat.ltb_spec (length fieldnames) (length record)) as [Hlt|Hge].
    + rewrite lookup_insert_eq. split; [done | by eexists].
    + split; [|lia]. intros Hk.
      apply restval_keys in Hk as [Hk|Hk].
      * apply Hzip in Hk as (f & Hf & _). discriminate.
      * apply list_elem_of_fmap in Hk as (f & Hf & _). discriminate.
Qed.

Lemma short_record_has_both_columns :
  is_Some (cleaned (dict_row ["a"; "b"] ["1"]) !! Some "b").
Proof.
  apply (proj1 (decoded_rows_have_the_header_columns ["a"; "b"] ["1"])).
  repeat constructor.
Defined.

(** ** The order of the events *)

Lemma in_order_app evs1 evs2 mid :
  in_order evs1 -> in_order evs2 ->
  Forall (fun ev => is_log ev = false -> (phase ev <= mid)%nat) evs1 ->
  Forall (fun ev => is_log ev = false -> (mid <= phase ev)%nat) evs2 ->
  in_order (evs1 ++ evs2).
Proof.
  intros H1 H2 Hlo Hhi i j a b Hij Ha Hb Hna Hnb.
  rewrite Forall_forall in Hlo, Hhi.
  destruct (Nat.lt_ge_cases j (length evs1)) as [Hj|Hj].
  - rewrite lookup_app_l in Ha, Hb by lia.
    exact (H1 i j a b Hij Ha Hb Hna Hnb).
  - rewrite lookup_app_r in Hb by lia.
    destruct (Nat.lt_ge_cases i (length evs1)) as [Hi|Hi].
    + rewrite lookup_app_l in Ha by lia.
      apply list_elem_of_lookup_2 in Ha, Hb.
      specialize (Hlo _ Ha Hna). specialize (Hhi _ Hb Hnb). lia.
    + rewrite lookup_app_r in Ha by lia.
      apply (H2 (i - length evs1)%nat (j - length evs1)%nat a b);
        [lia | done | done | done | done].
Qed.

Lemma in_order_one_phase evs p :
  Forall (fun ev => is_log ev = false -> phase ev = p) evs -> in_order evs.
Proof.
  intros H i j a b _ Ha Hb Hna Hnb. rewrite Forall_forall in H.
  apply list_elem_of_lookup_2 in Ha, Hb.
  rewrite (H _ Ha Hna), (H _ Hb Hnb). lia.
Qed.

Lemma staged_of_emits {A} p (m : M A) :
  emits (fun ev => is_log ev = false -> phase ev = p) m -> staged p p m.
Proof.
  intros H c. specialize (H c). split; [by eapply in_order_one_phase|].
  eapply Forall_impl; [exact H|]. intros ev Hev Hn. rewrite (Hev Hn). lia.
Qed.

Lemma staged_weaken {A} lo hi lo' hi' (m : M A) :
  (lo' <= lo)%nat -> (hi <= hi')%nat -> staged lo hi m -> staged lo' hi' m.
Proof.
  intros Hlo Hhi H c. destruct (H c) as [Hord Hall]. split; [exact Hord|].
  eapply Forall_impl; [exact Hall|]. intros ev Hev Hn. specialize (Hev Hn). lia.
Qed.

Lemma staged_bind {A B} lo mid hi (m : M A) (k : A -> M B) :
  staged lo mid m -> (forall a, staged mid hi (k a)) ->
  (lo <= mid <= hi)%nat ->
  staged lo hi (m ≫= k).
Proof.
  intros Hm Hk Hmid c. rewrite bind_run. destruct (Hm c) as [Hord1 Hall1].
  destruct (m c) as [[[a|e] c1] evs1]; cbn [fst snd] in *.
  - destruct (Hk a c1) as [Hord2 Hall2].
    destruct (k a c1) as [[r c2] evs2]; cbn [fst snd] in *. split.
    + apply (in_order_app evs1 evs2 mid); [done | done | |].
      * eapply Forall_impl; [exact Hall1|]. intros ev Hev Hn.
        specialize (Hev Hn). lia.
      * eapply Forall_impl; [exact Hall2|]. intros ev Hev Hn.
        specialize (Hev Hn). lia.
    + apply Forall_app. split.
      * eapply Forall_impl; [exact Hall1|]. intros ev Hev Hn.
        specialize (Hev Hn). lia.
      * eapply Forall_impl; [exact Hall2|]. intros ev Hev Hn.
        specialize (Hev Hn). lia.
  - split; [exact Hord1|].
    eapply Forall_impl; [exact Hall1|]. intros ev Hev Hn.
    specialize (Hev Hn). lia.
Qed.

(** X20.  In every run of [update], whether it returns or raises, the
    events come in the order of the workflow: the enqueue request before
    any poll or sleep, those before the download request, the download
    before any upsert, and every upsert before the checkpoint. *)
Theorem update_events_are_in_order env (conf state : dict) c :
  in_order (update env conf state c).2.
Proof.
  assert (forall A p (m : M A),
            emits (fun ev => is_log ev = false -> phase ev = 0%nat) m ->
            (p <= 4)%nat -> staged 0 p m) as Hfirst.
  { intros A p m Hm Hp. eapply staged_weaken; [| |by apply staged_of_emits];
      lia. }
  enough (staged 0 4 (update env conf state)) as H by apply H.
  unfold update.
  apply (staged_bind 0 0 4); [|intros w|lia].
  { apply staged_of_emits. apply compute_window_emits. }
  unfold sync_window. destruct (w.1 >=? w.2).
  { eapply staged_weaken; [| |apply (staged_of_emits 0)];
      [lia | lia | by apply emits_emit]. }
  apply (staged_bind 0 0 4); [|intros job_id|lia].
  { apply staged_of_emits. by apply enqueue_emits. }
  apply (staged_bind 0 1 4); [|intros job_info|lia].
  { eapply staged_weaken; [| |apply (staged_of_emits 1)]; [lia | lia |].
    by apply poll_job_emits. }
  apply (staged_bind 1 1 4); [|intros download_url|lia].
  { apply staged_of_emits. apply emits_subscript. }
  apply (staged_bind 1 2 4); [|intros csv_text|lia].
  { eapply staged_weaken; [| |apply (staged_of_emits 2)]; [lia | lia |].
    by apply download_emits. }
  apply (staged_bind 2 3 4); [|intros row_count|lia].
  { eapply staged_weaken; [| |apply (staged_of_emits 3)]; [lia | lia |].
    by apply upsert_rows_emits. }
  apply (staged_bind 3 3 4); [|intros _|lia].
  { apply staged_of_emits. repeat emits_step. }
  apply (staged_bind 3 3 4); [|intros _|lia].
  { apply staged_of_emits. by apply emits_emit. }
  eapply staged_weaken; [| |apply (staged_of_emits 4)]; [lia | lia |].
  by apply emits_emit.
Qed.
